(** * TauCalibrator: the per-event systematic fan-out of the tau calibration
    interface (Root/TauCalibrator.cxx).

    The algorithm fetches the tau collection of the event, configures the
    smearing tool once per systematic variation, corrects a shallow copy
    of the collection and files the copy, its auxiliary store and a view
    over it in the event store, followed by the list of variation names.

    The embedding threads one [World] (the algorithm object, the event
    store, the tool's active variation, the message stream) through a
    state monad in which a FAILURE return of the enclosing member
    function is the failing branch. *)

From Stdlib Require Import ZArith Sorted Permutation.
From stdpp Require Import gmap strings list sorting fin_maps.

(** ** Status and return codes *)

Inductive StatusCode := SUCCESS | FAILURE.

Global Instance StatusCode_eq_dec : EqDecision StatusCode.
Proof. solve_decision. Defined.

Module MSG.
Inductive Level := INFO | WARNING | ERROR.
End MSG.

Module CP.

(** A systematic set is identified by its name; the empty name is the
    nominal (baseline) configuration. *)
Record SystematicSet := mkSystematicSet { name : string }.

Module SystematicCode.
Inductive t := Ok | Unsupported.
End SystematicCode.

Module CorrectionCode.
Inductive t := Error | OutOfValidityRange | Ok.
End CorrectionCode.

End CP.

Global Instance SystematicSet_eq_dec : EqDecision CP.SystematicSet.
Proof. solve_decision. Defined.
Global Instance SystematicCode_eq_dec : EqDecision CP.SystematicCode.t.
Proof. solve_decision. Defined.
Global Instance CorrectionCode_eq_dec : EqDecision CP.CorrectionCode.t.
Proof. solve_decision. Defined.

(** ** Event data model *)

(** A tau of the event.  The four-momentum components are carried as
    integers (MeV, and scaled angles): the algorithm only copies them,
    hands them to the tool and compares [pt] values.  [truthParticleLink]
    is what xAOD::TauHelpers::getTruthParticle finds, [originalObjectLink]
    the index of the input object the tau was copied from. *)
Record TauJet := mkTauJet {
  pt : Z;
  eta : Z;
  phi : Z;
  m : Z;
  truthParticleLink : option nat;
  originalObjectLink : option nat
}.

Global Instance TauJet_eq_dec : EqDecision TauJet.
Proof. solve_decision. Defined.

Definition p4 (t : TauJet) : Z * Z * Z * Z := (pt t, eta t, phi t, m t).

Definition setLink (i : nat) (t : TauJet) : TauJet :=
  mkTauJet (pt t) (eta t) (phi t) (m t) (truthParticleLink t) (Some i).

Record EventInfo := mkEventInfo { eventNumber : Z }.

(** The auxiliary store of a shallow copy refers to the collection it
    shadows; the values of the copies are kept with the copies. *)
Record ShallowAuxContainer := mkShallowAux { parent : list TauJet }.

(** What the event store can hold under a key.  A [TauJetContainer] owns
    its elements; a [ConstDataVector] is a view (SG::VIEW_ELEMENTS) whose
    elements belong to another container. *)
Inductive StoreObject :=
| ObjEventInfo (ei : EventInfo)
| ObjTauJetContainer (c : list TauJet)
| ObjShallowAuxContainer (aux : ShallowAuxContainer)
| ObjConstDataVector (v : list TauJet)
| ObjStringVector (v : list string).

(** ** The algorithm object *)

Record Properties := mkProperties {
  m_name : string;
  m_inContainerName : string;
  m_outContainerName : string;
  m_RecommendationTag : string;
  m_applyMVATES : bool;
  m_applyCombinedTES : bool;
  m_setAFII : bool;
  m_sort : bool;
  m_inputAlgoSystNames : string;
  m_outputAlgoSystNames : string;
  m_writeSystToMetadata : bool;
  m_systName : string;
  m_systVal : Z;
  m_eventInfoContainerName : string;
  m_isMC : bool
}.

(** m_numEvent and m_numObject are C++ ints: a value that leaves the
    32-bit range comes back in at the other end. *)
Definition int_wrap (z : Z) : Z :=
  ((z + 2147483648) mod 4294967296 - 2147483648)%Z.

Record TauCalibrator := mkTauCalibrator {
  props : Properties;
  m_outAuxContainerName : string;
  m_outSCContainerName : string;
  m_outSCAuxContainerName : string;
  m_numEvent : Z;
  m_numObject : Z;
  m_systList : list CP.SystematicSet
}.

(** Calls received by the smearing tool, in order. *)
Inductive ToolCall :=
| CallApplySystematicVariation (s : CP.SystematicSet)
| CallApplyCorrection (t : TauJet).

Record World := mkWorld {
  this : TauCalibrator;
  evtStore : gmap string StoreObject;
  tool_active : CP.SystematicSet;
  tool_calls : list ToolCall;
  hist : list (string * list string);
  msg : list (MSG.Level * string)
}.

Definition set_this (a : TauCalibrator) (w : World) : World :=
  mkWorld a (evtStore w) (tool_active w) (tool_calls w) (hist w) (msg w).
Definition set_evtStore (s : gmap string StoreObject) (w : World) : World :=
  mkWorld (this w) s (tool_active w) (tool_calls w) (hist w) (msg w).
Definition set_tool_active (s : CP.SystematicSet) (w : World) : World :=
  mkWorld (this w) (evtStore w) s (tool_calls w) (hist w) (msg w).
Definition add_tool_call (c : ToolCall) (w : World) : World :=
  mkWorld (this w) (evtStore w) (tool_active w) (tool_calls w ++ [c]) (hist w) (msg w).
Definition add_hist (h : string * list string) (w : World) : World :=
  mkWorld (this w) (evtStore w) (tool_active w) (tool_calls w) (hist w ++ [h]) (msg w).
Definition add_msg (l : MSG.Level) (s : string) (w : World) : World :=
  mkWorld (this w) (evtStore w) (tool_active w) (tool_calls w) (hist w) (msg w ++ [(l, s)]).

(** ** The monad of a member function returning a StatusCode

    [None] is an early [return StatusCode::FAILURE]. *)

Definition M (A : Type) : Type := World → option A * World.

Global Instance M_ret : MRet M := λ A a w, (Some a, w).
Global Instance M_bind : MBind M := λ A B f c w,
  match c w with
  | (Some a, w') => f a w'
  | (None, w') => (None, w')
  end.

Definition return_FAILURE {A} : M A := λ w, (None, w).
Definition get_this : M TauCalibrator := λ w, (Some (this w), w).
Definition modify (f : World → World) : M unit := λ w, (Some tt, f w).

(** ANA_CHECK: a call that reports FAILURE ends the enclosing function
    with FAILURE ("fatal ... aborts the remainder of event processing
    with a distinct failure status").  The diagnostic the macro prints,
    the ANA_MSG_DEBUG lines and the VERBOSE print of the store carry no
    control flow and are left out of the message stream. *)
Definition ANA_CHECK (call : World → StatusCode * World) : M unit := λ w,
  match call w with
  | (SUCCESS, w') => (Some tt, w')
  | (FAILURE, w') => (None, w')
  end.

(** ANA_CHECK around a call that fills an out-parameter. *)
Definition ANA_CHECK_retrieve {A} (call : World → option A) : M A := λ w,
  (call w, w).

Definition ANA_CHECK_out {A} (call : World → StatusCode * A * World) : M A := λ w,
  match call w with
  | (SUCCESS, out, w') => (Some out, w')
  | (FAILURE, _, w') => (None, w')
  end.

Definition ANA_MSG_INFO (s : string) : M unit := modify (add_msg MSG.INFO s).
Definition ANA_MSG_WARNING (s : string) : M unit := modify (add_msg MSG.WARNING s).
Definition ANA_MSG_ERROR (s : string) : M unit := modify (add_msg MSG.ERROR s).

Definition status_of {A} (r : option A * World) : StatusCode * World :=
  (match r.1 with Some _ => SUCCESS | None => FAILURE end, r.2).

(** ** The event store

    Modelled from the spec: the host's event-scoped store, "consumed via
    retrieve by name (fails if absent) and record by name (fails if name
    collision)".  retrieve is typed: it finds an object only when one of
    the requested type is filed under the key. *)

Definition retrieve_EventInfo (key : string) (w : World) : option EventInfo :=
  match evtStore w !! key with
  | Some (ObjEventInfo ei) => Some ei
  | _ => None
  end.

Definition retrieve_TauJetContainer (key : string) (w : World) : option (list TauJet) :=
  match evtStore w !! key with
  | Some (ObjTauJetContainer c) => Some c
  | _ => None
  end.

Definition record (obj : StoreObject) (key : string) (w : World) : StatusCode * World :=
  match evtStore w !! key with
  | Some _ => (FAILURE, w)
  | None => (SUCCESS, set_evtStore (<[key := obj]> (evtStore w)) w)
  end.

(** ** External collaborators *)

(** The smearing tool behind m_tauSmearingTool_handle.  The tool is
    deterministic: whether a variation can be activated depends on the
    variation only, and a correction on the active variation and the
    object only.  applyCorrection works on the object passed by
    reference: it yields the code and the object as the tool left it. *)
Class ITauSmearingTool := {
  setProperty : string → StatusCode;
  retrieve : StatusCode;
  recommendedSystematics : list CP.SystematicSet;
  applySystematicVariation : CP.SystematicSet → CP.SystematicCode.t;
  applyCorrection : CP.SystematicSet → TauJet → CP.CorrectionCode.t * TauJet
}.

(** What the host libraries decide: which recommended variations the
    user's m_systName/m_systVal select, whether one copy can be linked to
    its original, and std::sort, specified only by its contract below. *)
Class HostLibraries := {
  userSelects : string → Z → CP.SystematicSet → bool;
  canLink : TauJet → TauJet → bool;
  std_sort : (TauJet → TauJet → bool) → list TauJet → list TauJet
}.

(** [a] does not have to come after [b] under the comparison [comp]. *)
Definition not_after (comp : TauJet → TauJet → bool) (a b : TauJet) : Prop :=
  comp b a = false.

Global Instance not_after_dec comp a b : Decision (not_after comp a b).
Proof. unfold not_after. apply _. Defined.

(** The contract of std::sort for a comparison [comp]: the result is a
    rearrangement of the range in which no element has to come after its
    successor.  The relative order of equivalent elements is left open. *)
Definition std_sort_contract `{HostLibraries} (comp : TauJet → TauJet → bool) : Prop :=
  ∀ l, std_sort comp l ≡ₚ l ∧ Sorted (not_after comp) (std_sort comp l).

Section TauCalibrator.
Context `{tool : ITauSmearingTool} `{host : HostLibraries}.

(** *** Parts of the package that live outside Root/TauCalibrator.cxx *)

(** Modelled from the spec: HelperFunctions::getListofSystematics
    (xAODAnaHelpers/HelperFunctions.h).  "Ordered list of variation
    descriptors, computed once at setup time from the correction tool's
    recommended set intersected with any user-restricted subset; must
    contain at least the implicit baseline entry", the baseline being the
    empty-name variation, first in the list. *)
Definition getListofSystematics (recSyst : list CP.SystematicSet)
    (systName : string) (systVal : Z) : list CP.SystematicSet :=
  CP.mkSystematicSet "" :: filter (λ s, userSelects systName systVal s = true) recSyst.

(** Modelled from the spec: HelperFunctions::sort_pt
    (xAODAnaHelpers/HelperFunctions.h).  "Descending transverse momentum
    (a ... comparison on a numeric field)": the first argument goes
    before the second when its pt is larger. *)
Definition sort_pt (a b : TauJet) : bool := bool_decide (pt a > pt b)%Z.

(** Modelled from the spec: HelperFunctions::makeSubsetCont
    (xAODAnaHelpers/HelperFunctions.h).  "Build a read-only view
    preserving a subset/order": the objects of [intCont] that pass the
    selection are appended to [outCont] in their order.  execute passes no
    selection, and "when not requested [to sort], the view equals the
    unsorted copy in original order". *)
Definition makeSubsetCont (intCont outCont : list TauJet)
    (flagSelect : option (TauJet → bool)) (w : World) : StatusCode * list TauJet * World :=
  let selected :=
    match flagSelect with
    | Some flag => filter (λ t, flag t = true) intCont
    | None => intCont
    end in
  (SUCCESS, outCont ++ selected, w).

(** Modelled from the spec: xAH::Algorithm::isMC
    (xAODAnaHelpers/Algorithm.h): "run in simulation mode (vs. real
    data)". *)
Definition isMC (a : TauCalibrator) : bool := m_isMC (props a).

(** Modelled from the spec: xAH::Algorithm::writeSystematicsListHist
    (xAODAnaHelpers/Algorithm.h): "the variation list is also recorded as
    descriptive metadata for bookkeeping". *)
Definition writeSystematicsListHist (systs : list CP.SystematicSet) (name : string) : M unit :=
  modify (add_hist (name, CP.name <$> systs)).

(** *** xAOD helpers *)

(** Modelled from the spec: xAOD::shallowCopyContainer, "copy a
    collection producing an owning copy + auxiliary store": a copy of
    every object, in order, and the auxiliary store that shadows the
    original. *)
Definition shallowCopyContainer (cont : list TauJet) : list TauJet * ShallowAuxContainer :=
  (cont, mkShallowAux cont).

(** Modelled from the spec: xAOD::TauHelpers::getTruthParticle, the
    "associated ground-truth counterpart", "a runtime nullable lookup". *)
Definition getTruthParticle (t : TauJet) : option nat := truthParticleLink t.

(** Modelled from the spec: xAOD::setOriginalObjectLink on two
    containers, "link a copy back to its original", "a provenance link
    from each copy back to its original input object".  The sizes must
    agree; the copies are linked one by one to the original at the same
    index, and the first copy that cannot be linked ends the call with
    [false], earlier links staying in place. *)
Fixpoint setOriginalObjectLinks (idx : nat) (original copy : list TauJet) : bool * list TauJet :=
  match original, copy with
  | o :: original', c :: copy' =>
      if canLink o c then
        let '(ok, rest) := setOriginalObjectLinks (S idx) original' copy' in
        (ok, setLink idx c :: rest)
      else (false, c :: copy')
  | _, _ => (true, copy)
  end.

Definition setOriginalObjectLink (original copy : list TauJet) : bool * list TauJet :=
  if decide (length copy = length original)
  then setOriginalObjectLinks 0 original copy
  else (false, copy).

(** *** The tool handle *)

Definition tool_applySystematicVariation (s : CP.SystematicSet) : M CP.SystematicCode.t := λ w,
  let w := add_tool_call (CallApplySystematicVariation s) w in
  match applySystematicVariation s with
  | CP.SystematicCode.Ok => (Some CP.SystematicCode.Ok, set_tool_active s w)
  | code => (Some code, w)
  end.

Definition tool_applyCorrection (t : TauJet) : M (CP.CorrectionCode.t * TauJet) := λ w,
  (Some (applyCorrection (tool_active w) t), add_tool_call (CallApplyCorrection t) w).

(** *** TauCalibrator :: initialize *)

Definition tab : string := String (Ascii.ascii_of_nat 9) "".

(** The loop that collects the names for "taus_Syst" (lines 134-141). *)
Fixpoint collect_SystTausNames (systName : string) (systs : list CP.SystematicSet)
    (SystTausNames : list string) : M (list string) :=
  match systs with
  | [] => mret SystTausNames
  | syst_it :: systs' =>
      if decide (systName = "") then
        ANA_MSG_INFO (tab +:+ " Running w/ nominal configuration only!");;
        mret SystTausNames
      else
        ANA_MSG_INFO (tab +:+ " " +:+ CP.name syst_it);;
        collect_SystTausNames systName systs' (SystTausNames ++ [CP.name syst_it])
  end.

Definition initialize : M unit :=
  ANA_MSG_INFO "Initializing TauCalibrator Interface... ";;
  modify (λ w,
    let a := this w in
    let p := props a in
    let outSC := m_outContainerName p +:+ "ShallowCopy" in
    set_this (mkTauCalibrator p
                (m_outContainerName p +:+ "Aux.")
                outSC
                (outSC +:+ "Aux.")
                (m_numEvent a) (m_numObject a) (m_systList a)) w);;
  a ← get_this;
  if decide (m_inContainerName (props a) = "") then
    ANA_MSG_ERROR "InputContainer is empty!";;
    return_FAILURE
  else
    modify (λ w,
      let a := this w in
      set_this (mkTauCalibrator (props a) (m_outAuxContainerName a)
                  (m_outSCContainerName a) (m_outSCAuxContainerName a)
                  0 0 (m_systList a)) w);;
    (if decide (m_RecommendationTag (props a) = "") then mret tt
     else ANA_CHECK (λ w, (setProperty "RecommendationTag", w)));;
    ANA_CHECK (λ w, (setProperty "ApplyMVATES", w));;
    ANA_CHECK (λ w, (setProperty "ApplyCombinedTES", w));;
    ANA_CHECK (λ w, (retrieve, w));;
    let recSyst := recommendedSystematics in
    ANA_MSG_INFO " Initializing Tau Calibrator Systematics :";;
    modify (λ w,
      let a := this w in
      set_this (mkTauCalibrator (props a) (m_outAuxContainerName a)
                  (m_outSCContainerName a) (m_outSCAuxContainerName a)
                  (m_numEvent a) (m_numObject a)
                  (getListofSystematics recSyst (m_systName (props a)) (m_systVal (props a)))) w);;
    ANA_MSG_INFO "Will be using TauSmearingTool systematic:";;
    a ← get_this;
    SystTausNames ← collect_SystTausNames (m_systName (props a)) (m_systList a) [];
    ANA_CHECK (record (ObjStringVector SystTausNames) ("taus_Syst" +:+ m_name (props a)));;
    (if m_writeSystToMetadata (props a)
     then writeSystematicsListHist (m_systList a) (m_name (props a))
     else mret tt);;
    ANA_MSG_INFO "TauCalibrator Interface succesfully initialized!".

(** *** TauCalibrator :: execute *)

(** The calibration loop over the shallow copy (lines 216-229). *)
Fixpoint calibrate (taus : list TauJet) : M (list TauJet) :=
  match taus with
  | [] => mret []
  | tauSC_itr :: rest =>
      corrected ←
        (if getTruthParticle tauSC_itr is Some _ then
           '(code, tau') ← tool_applyCorrection tauSC_itr;
           (if decide (code = CP.CorrectionCode.Error)
            then ANA_MSG_WARNING "TauSmearingTool returned Error CorrectionCode"
            else mret tt);;
           mret tau'
         else mret tauSC_itr);
      rest' ← calibrate rest;
      mret (corrected :: rest')
  end.

(** The body of the loop over the systematics (lines 185-259).
    [vecOutContainerNames] is the vector collected so far. *)
Definition execute_syst (inTaus : list TauJet) (vecOutContainerNames : list string)
    (syst_it : CP.SystematicSet) : M (list string) :=
  a ← get_this;
  let outSCContainerName := m_outSCContainerName a +:+ CP.name syst_it in
  let outSCAuxContainerName := m_outSCAuxContainerName a +:+ CP.name syst_it in
  let outContainerName := m_outContainerName (props a) +:+ CP.name syst_it in
  let vecOutContainerNames := vecOutContainerNames ++ [CP.name syst_it] in
  code ← tool_applySystematicVariation syst_it;
  if decide (code ≠ CP.SystematicCode.Ok) then
    ANA_MSG_ERROR ("Failed to configure TauSmearingTool for systematic " +:+ CP.name syst_it);;
    return_FAILURE
  else
    let calibTausSC := shallowCopyContainer inTaus in
    let calibTausCDV : list TauJet := [] in
    calibrated ← (if isMC a then calibrate calibTausSC.1 else mret calibTausSC.1);
    let '(linked_ok, calibTausSC_first) := setOriginalObjectLink inTaus calibrated in
    (if linked_ok then mret tt
     else ANA_MSG_ERROR "Failed to set original object links -- MET rebuilding cannot proceed.");;
    calibTausCDV ← ANA_CHECK_out (makeSubsetCont calibTausSC_first calibTausCDV None);
    let calibTausCDV :=
      if m_sort (props a) then std_sort sort_pt calibTausCDV else calibTausCDV in
    ANA_CHECK (record (ObjTauJetContainer calibTausSC_first) outSCContainerName);;
    ANA_CHECK (record (ObjShallowAuxContainer calibTausSC.2) outSCAuxContainerName);;
    ANA_CHECK (record (ObjConstDataVector calibTausCDV) outContainerName);;
    mret vecOutContainerNames.

Fixpoint execute_systs (inTaus : list TauJet) (vecOutContainerNames : list string)
    (systs : list CP.SystematicSet) : M (list string) :=
  match systs with
  | [] => mret vecOutContainerNames
  | syst_it :: systs' =>
      vec ← execute_syst inTaus vecOutContainerNames syst_it;
      execute_systs inTaus vec systs'
  end.

Definition execute_body : M unit :=
  modify (λ w,
    let a := this w in
    set_this (mkTauCalibrator (props a) (m_outAuxContainerName a)
                (m_outSCContainerName a) (m_outSCAuxContainerName a)
                (int_wrap (m_numEvent a + 1)) (m_numObject a) (m_systList a)) w);;
  a ← get_this;
  eventInfo ← ANA_CHECK_retrieve (retrieve_EventInfo (m_eventInfoContainerName (props a)));
  eventInfo ← ANA_CHECK_retrieve (retrieve_EventInfo (m_eventInfoContainerName (props a)));
  inTaus ← ANA_CHECK_retrieve (retrieve_TauJetContainer (m_inContainerName (props a)));
  vecOutContainerNames ← execute_systs inTaus [] (m_systList a);
  ANA_CHECK (record (ObjStringVector vecOutContainerNames) (m_outputAlgoSystNames (props a))).

Definition execute (w : World) : StatusCode * World := status_of (execute_body w).

End TauCalibrator.

(** ** What one variation produces

    Closed forms of the pieces of the loop body, against which the
    monadic code is proved below. *)

Section Closed_forms.
Context `{tool : ITauSmearingTool} `{host : HostLibraries}.

(** The tau after the calibration loop under the active variation [s]. *)
Definition corrected (s : CP.SystematicSet) (t : TauJet) : TauJet :=
  if getTruthParticle t is Some _ then (applyCorrection s t).2 else t.

Definition correction_call (t : TauJet) : list ToolCall :=
  if getTruthParticle t is Some _ then [CallApplyCorrection t] else [].

Definition correction_warning (s : CP.SystematicSet) (t : TauJet) : list (MSG.Level * string) :=
  if getTruthParticle t is Some _ then
    if decide ((applyCorrection s t).1 = CP.CorrectionCode.Error)
    then [(MSG.WARNING, "TauSmearingTool returned Error CorrectionCode")]
    else []
  else [].

(** The world after the tool was used: [s] active, calls and messages
    appended. *)
Definition after_tool (s : CP.SystematicSet) (calls : list ToolCall)
    (msgs : list (MSG.Level * string)) (w : World) : World :=
  mkWorld (this w) (evtStore w) s (tool_calls w ++ calls) (hist w) (msg w ++ msgs).

Definition calibrated (a : TauCalibrator) (s : CP.SystematicSet) (inTaus : list TauJet) : list TauJet :=
  if isMC a then corrected s <$> inTaus else inTaus.

(** The owning copy, the view and the messages of variation [s]. *)
Definition out_copy (a : TauCalibrator) (s : CP.SystematicSet) (inTaus : list TauJet) : list TauJet :=
  (setOriginalObjectLink inTaus (calibrated a s inTaus)).2.

Definition out_view (a : TauCalibrator) (s : CP.SystematicSet) (inTaus : list TauJet) : list TauJet :=
  if m_sort (props a) then std_sort sort_pt (out_copy a s inTaus) else out_copy a s inTaus.

Definition link_error (a : TauCalibrator) (s : CP.SystematicSet) (inTaus : list TauJet)
    : list (MSG.Level * string) :=
  if (setOriginalObjectLink inTaus (calibrated a s inTaus)).1 then []
  else [(MSG.ERROR, "Failed to set original object links -- MET rebuilding cannot proceed.")].

Definition syst_calls (a : TauCalibrator) (s : CP.SystematicSet) (inTaus : list TauJet) : list ToolCall :=
  CallApplySystematicVariation s :: (if isMC a then inTaus ≫= correction_call else []).

Definition syst_msgs (a : TauCalibrator) (s : CP.SystematicSet) (inTaus : list TauJet)
    : list (MSG.Level * string) :=
  (if isMC a then inTaus ≫= correction_warning s else []) ++ link_error a s inTaus.

(** The keys of variation [s]. *)
Definition outSCContainerName (a : TauCalibrator) (s : CP.SystematicSet) : string :=
  m_outSCContainerName a +:+ CP.name s.
Definition outSCAuxContainerName (a : TauCalibrator) (s : CP.SystematicSet) : string :=
  m_outSCAuxContainerName a +:+ CP.name s.
Definition outContainerName (a : TauCalibrator) (s : CP.SystematicSet) : string :=
  m_outContainerName (props a) +:+ CP.name s.

Definition output_keys (a : TauCalibrator) (s : CP.SystematicSet) : list string :=
  [outSCContainerName a s; outSCAuxContainerName a s; outContainerName a s].

(** [obj] is what variation [s] files under [k]. *)
Definition is_output (a : TauCalibrator) (inTaus : list TauJet) (s : CP.SystematicSet)
    (k : string) (obj : StoreObject) : Prop :=
  (k = outSCContainerName a s ∧ obj = ObjTauJetContainer (out_copy a s inTaus)) ∨
  (k = outSCAuxContainerName a s ∧ obj = ObjShallowAuxContainer (mkShallowAux inTaus)) ∨
  (k = outContainerName a s ∧ obj = ObjConstDataVector (out_view a s inTaus)).

(** The three records that close the loop body (lines 252-259). *)
Definition publish (a : TauCalibrator) (s : CP.SystematicSet) (inTaus : list TauJet) : M unit :=
  ANA_CHECK (record (ObjTauJetContainer (out_copy a s inTaus)) (outSCContainerName a s));;
  ANA_CHECK (record (ObjShallowAuxContainer (mkShallowAux inTaus)) (outSCAuxContainerName a s));;
  ANA_CHECK (record (ObjConstDataVector (out_view a s inTaus)) (outContainerName a s)).

Definition published (a : TauCalibrator) (s : CP.SystematicSet) (inTaus : list TauJet)
    (st : gmap string StoreObject) : gmap string StoreObject :=
  <[outContainerName a s := ObjConstDataVector (out_view a s inTaus)]>
    (<[outSCAuxContainerName a s := ObjShallowAuxContainer (mkShallowAux inTaus)]>
       (<[outSCContainerName a s := ObjTauJetContainer (out_copy a s inTaus)]> st)).

Definition configure_failed (s : CP.SystematicSet) (w : World) : World :=
  after_tool (tool_active w) [CallApplySystematicVariation s]
    [(MSG.ERROR, "Failed to configure TauSmearingTool for systematic " +:+ CP.name s)] w.

Definition is_configure_call (c : ToolCall) : Prop :=
  match c with CallApplySystematicVariation _ => True | CallApplyCorrection _ => False end.

(** The algorithm object once m_numEvent is incremented (line 165). *)
Definition count_event (a : TauCalibrator) : TauCalibrator :=
  mkTauCalibrator (props a) (m_outAuxContainerName a) (m_outSCContainerName a)
    (m_outSCAuxContainerName a) (int_wrap (m_numEvent a + 1)) (m_numObject a) (m_systList a).

Definition begin_event (w : World) : World := set_this (count_event (this w)) w.

(** What identifies the set-up of the algorithm between events:
    everything but the counters. *)
Definition setup (a : TauCalibrator)
    : Properties * string * string * string * list CP.SystematicSet :=
  (props a, m_outAuxContainerName a, m_outSCContainerName a,
   m_outSCAuxContainerName a, m_systList a).

(** The copy [c] at index [i] comes from the input tau [t]: it is [t]
    after the calibration loop of variation [s], with or without the link
    back to index [i]. *)
Definition comes_from (a : TauCalibrator) (s : CP.SystematicSet) (i : nat) (t c : TauJet) : Prop :=
  let t' := if isMC a then corrected s t else t in
  c = t' ∨ c = setLink i t'.

(** The links of variation [s] could all be set. *)
Definition links_established (a : TauCalibrator) (s : CP.SystematicSet)
    (inTaus : list TauJet) : bool :=
  (setOriginalObjectLink inTaus (calibrated a s inTaus)).1.

(** All the keys an event files. *)
Definition event_keys (a : TauCalibrator) : list string :=
  (m_systList a ≫= output_keys a) ++ [m_outputAlgoSystNames (props a)].

End Closed_forms.

(** ** The other entry points of the algorithm

    fileExecute, changeInput and finalize return SUCCESS and do nothing
    else (lines 63-77, 278-291). *)

Definition fileExecute : M unit := mret tt.

Definition changeInput (firstFile : bool) : M unit := mret tt.

Definition finalize : M unit := mret tt.

(** The key and the content of what initialize files in the store
    (lines 133-143). *)
Definition init_key (a : TauCalibrator) : string := "taus_Syst" +:+ m_name (props a).

Definition init_names (a : TauCalibrator) : list string :=
  if decide (m_systName (props a) = "") then [] else CP.name <$> m_systList a.

Global Instance is_configure_call_dec c : Decision (is_configure_call c).
Proof. destruct c; apply _. Defined.

(** ** A concrete set-up

    The scenario of the specification: three taus, the variation list
    [baseline; TAUS_TES_TOTAL_1up], output base name [Out]. *)

(** A tool that knows the TES variations, shifts pt by an amount that
    depends on the active variation, reports Error for a negative pt and
    OutOfValidityRange above 1 TeV. *)
Definition scenario_tool : ITauSmearingTool := {|
  setProperty := λ _, SUCCESS;
  retrieve := SUCCESS;
  recommendedSystematics :=
    [CP.mkSystematicSet "TAUS_TES_TOTAL_1up"; CP.mkSystematicSet "TAUS_TES_TOTAL_1down"];
  applySystematicVariation := λ s,
    if decide (CP.name s ∈ [""; "TAUS_TES_TOTAL_1up"; "TAUS_TES_TOTAL_1down"])
    then CP.SystematicCode.Ok else CP.SystematicCode.Unsupported;
  applyCorrection := λ s t,
    if decide (pt t < 0)%Z then (CP.CorrectionCode.Error, t)
    else if decide (1000000 < pt t)%Z then (CP.CorrectionCode.OutOfValidityRange, t)
    else (CP.CorrectionCode.Ok,
          mkTauJet (pt t + 1000 * (1 + Z.of_nat (String.length (CP.name s))))
            (eta t) (phi t) (m t) (truthParticleLink t) (originalObjectLink t))
|}.

(** The same tool, except that before it reports Error for a negative pt
    it has already written a pt of its own into the object it was
    handed. *)
Definition meddling_tool : ITauSmearingTool := {|
  setProperty := λ _, SUCCESS;
  retrieve := SUCCESS;
  recommendedSystematics :=
    [CP.mkSystematicSet "TAUS_TES_TOTAL_1up"; CP.mkSystematicSet "TAUS_TES_TOTAL_1down"];
  applySystematicVariation := λ s,
    if decide (CP.name s ∈ [""; "TAUS_TES_TOTAL_1up"; "TAUS_TES_TOTAL_1down"])
    then CP.SystematicCode.Ok else CP.SystematicCode.Unsupported;
  applyCorrection := λ s t,
    if decide (pt t < 0)%Z
    then (CP.CorrectionCode.Error,
          mkTauJet 37777 (eta t) (phi t) (m t) (truthParticleLink t) (originalObjectLink t))
    else if decide (1000000 < pt t)%Z then (CP.CorrectionCode.OutOfValidityRange, t)
    else (CP.CorrectionCode.Ok,
          mkTauJet (pt t + 1000 * (1 + Z.of_nat (String.length (CP.name s))))
            (eta t) (phi t) (m t) (truthParticleLink t) (originalObjectLink t))
|}.

(** Straight insertion sort: the elements are taken from left to right
    and each one is put into the sorted part, behind every element it
    does not have to come before. *)
Fixpoint linear_insert (comp : TauJet → TauJet → bool) (x : TauJet) (l : list TauJet) :
  list TauJet :=
  match l with
  | [] => [x]
  | y :: l' => if comp x y then x :: y :: l' else y :: linear_insert comp x l'
  end.

Definition insertion_sort (comp : TauJet → TauJet → bool) (l : list TauJet) : list TauJet :=
  fold_left (λ sorted x, linear_insert comp x sorted) l [].

(** Host libraries: the user selects a variation by its exact name, every
    link can be set, and std::sort is the insertion sort. *)
Definition scenario_host : HostLibraries := {|
  userSelects := λ n _ s, bool_decide (CP.name s = n);
  canLink := λ _ _, true;
  std_sort := insertion_sort
|}.

(** The same host where no link can be set. *)
Definition unlinkable_host : HostLibraries := {|
  userSelects := λ n _ s, bool_decide (CP.name s = n);
  canLink := λ _ _, false;
  std_sort := insertion_sort
|}.

Definition scenario_props (sort isMC : bool) : Properties := {|
  m_name := "TauCalibrator";
  m_inContainerName := "TauJets";
  m_outContainerName := "Out";
  m_RecommendationTag := "";
  m_applyMVATES := false;
  m_applyCombinedTES := false;
  m_setAFII := false;
  m_sort := sort;
  m_inputAlgoSystNames := "";
  m_outputAlgoSystNames := "Out_Syst";
  m_writeSystToMetadata := false;
  m_systName := "TAUS_TES_TOTAL_1up";
  m_systVal := 1;
  m_eventInfoContainerName := "EventInfo";
  m_isMC := isMC
|}.

Definition nominal : CP.SystematicSet := CP.mkSystematicSet "".
Definition TES_1up : CP.SystematicSet := CP.mkSystematicSet "TAUS_TES_TOTAL_1up".
Definition unknown_syst : CP.SystematicSet := CP.mkSystematicSet "JET_JER".

(** The algorithm object as the constructor leaves it, and after
    initialize with a given variation list. *)
Definition constructed (p : Properties) : TauCalibrator :=
  mkTauCalibrator p "" "" "" 0 0 [].

Definition configured (p : Properties) (systs : list CP.SystematicSet) : TauCalibrator :=
  mkTauCalibrator p "OutAux." "OutShallowCopy" "OutShallowCopyAux." 0 0 systs.

Definition scenario_taus : list TauJet :=
  [ mkTauJet 30000 100 20 1777 (Some 0%nat) None;
    mkTauJet 50000 (-50) 10 1777 None None;
    mkTauJet 50000 120 (-30) 1777 (Some 1%nat) None ].

(** Three taus of which the first makes the tool report Error. *)
Definition faulty_taus : list TauJet :=
  [ mkTauJet (-1) 100 20 1777 (Some 0%nat) None;
    mkTauJet 50000 (-50) 10 1777 None None;
    mkTauJet 40000 120 (-30) 1777 (Some 1%nat) None ].

Definition event_store (taus : list TauJet) : gmap string StoreObject :=
  <["EventInfo" := ObjEventInfo (mkEventInfo 1)]>
    (<["TauJets" := ObjTauJetContainer taus]> ∅).

Definition world_of (a : TauCalibrator) (st : gmap string StoreObject) : World :=
  mkWorld a st nominal [] [] [].

Definition scenario_world (sort isMC : bool) : World :=
  world_of (configured (scenario_props sort isMC) [nominal; TES_1up])
    (event_store scenario_taus).

(** Further set-ups: an algorithm without input container name, a store
    without event information, a store where the key of the first
    auxiliary store is taken. *)
Definition nameless_props : Properties := {|
  m_name := "TauCalibrator";
  m_inContainerName := "";
  m_outContainerName := "Out";
  m_RecommendationTag := "";
  m_applyMVATES := false;
  m_applyCombinedTES := false;
  m_setAFII := false;
  m_sort := false;
  m_inputAlgoSystNames := "";
  m_outputAlgoSystNames := "Out_Syst";
  m_writeSystToMetadata := true;
  m_systName := "";
  m_systVal := 0;
  m_eventInfoContainerName := "EventInfo";
  m_isMC := true
|}.

Definition store_without_event_info : gmap string StoreObject :=
  <["TauJets" := ObjTauJetContainer scenario_taus]> ∅.

Definition store_with_taken_key : gmap string StoreObject :=
  <["OutShallowCopyAux." := ObjStringVector []]> (event_store scenario_taus).

(** * Proofs *)

Section Loop_body.
Context `{tool : ITauSmearingTool} `{host : HostLibraries}.

Lemma world_eta (w : World) :
  mkWorld (this w) (evtStore w) (tool_active w) (tool_calls w) (hist w) (msg w) = w.
Proof. by destruct w. Qed.

Lemma calibrate_spec (taus : list TauJet) (w : World) :
  calibrate taus w =
    (Some (corrected (tool_active w) <$> taus),
     after_tool (tool_active w) (taus ≫= correction_call)
       (taus ≫= correction_warning (tool_active w)) w).
Proof.
  revert w. induction taus as [|t taus IH]; intros w.
  - destruct w. unfold after_tool. simpl. by rewrite !app_nil_r.
  - simpl calibrate. unfold mbind, M_bind at 1.
    unfold corrected, correction_call, correction_warning.
    rewrite fmap_cons, !bind_cons.
    destruct (getTruthParticle t) as [tp|].
    + unfold mbind at 1, M_bind at 1, tool_applyCorrection at 1.
      destruct (applyCorrection (tool_active w) t) as [code t'] eqn:Hc. simpl.
      unfold mbind, M_bind at 1.
      destruct (decide (code = CP.CorrectionCode.Error)) as [->|Hne].
      * cbn. unfold mbind, M_bind. rewrite IH. cbn.
        unfold after_tool. cbn. f_equal. destruct w; cbn.
        f_equal; by rewrite <- app_assoc.
      * cbn. unfold mbind, M_bind. rewrite IH. cbn.
        unfold after_tool. cbn. f_equal. destruct w; cbn.
        f_equal; by rewrite <- ?app_assoc.
    + cbn. unfold mbind, M_bind. rewrite IH. cbn. done.
Qed.

Lemma calibration_step a inTaus w :
  (if isMC a then calibrate inTaus else mret inTaus) w =
    (Some (calibrated a (tool_active w) inTaus),
     after_tool (tool_active w)
       (if isMC a then inTaus ≫= correction_call else [])
       (if isMC a then inTaus ≫= correction_warning (tool_active w) else []) w).
Proof.
  unfold calibrated. destruct (isMC a).
  - apply calibrate_spec.
  - unfold after_tool. rewrite !app_nil_r, world_eta. done.
Qed.

Lemma execute_syst_unfold inTaus vec s w :
  execute_syst inTaus vec s w =
    match applySystematicVariation s with
    | CP.SystematicCode.Ok =>
        match publish (this w) s inTaus
                (after_tool s (syst_calls (this w) s inTaus) (syst_msgs (this w) s inTaus) w) with
        | (Some _, w') => (Some (vec ++ [CP.name s]), w')
        | (None, w') => (None, w')
        end
    | _ => (None, configure_failed s w)
    end.
Proof.
  unfold execute_syst. unfold mbind at 1, M_bind at 1, get_this at 1.
  unfold mbind at 1, M_bind at 1, tool_applySystematicVariation at 1.
  destruct (applySystematicVariation s) eqn:Hcfg.
  - rewrite decide_False by (intros H; by apply H).
    unfold shallowCopyContainer. cbn [fst snd].
    unfold mbind at 1, M_bind at 1.
    rewrite calibration_step. cbn [tool_active set_tool_active].
    unfold syst_msgs, syst_calls, link_error, publish, out_view, out_copy.
    unfold outSCContainerName, outSCAuxContainerName, outContainerName.
    destruct (setOriginalObjectLink inTaus (calibrated (this w) s inTaus))
      as [linked_ok copy] eqn:Hlink.
    cbn [fst snd].
    unfold ANA_CHECK_out, makeSubsetCont. rewrite app_nil_l.
    destruct linked_ok.
    + unfold mbind at 1, M_bind at 1, mret at 1, M_ret at 1.
      unfold mbind at 1, M_bind at 1.
      rewrite app_nil_r.
      replace (after_tool s _ _ (set_tool_active s _)) with
        (after_tool s (CallApplySystematicVariation s ::
                       (if isMC (this w) then inTaus ≫= correction_call else []))
           (if isMC (this w) then inTaus ≫= correction_warning s else []) w).
      2:{ unfold after_tool, set_tool_active, add_tool_call. cbn.
          by rewrite <- app_assoc. }
      unfold mbind, M_bind, ANA_CHECK, mret, M_ret.
      repeat case_match; simplify_eq; done.
    + unfold mbind at 1, M_bind at 1, ANA_MSG_ERROR at 1, modify at 1.
      unfold mbind at 1, M_bind at 1.
      replace (add_msg _ _ (after_tool s _ _ (set_tool_active s _))) with
        (after_tool s (CallApplySystematicVariation s ::
                       (if isMC (this w) then inTaus ≫= correction_call else []))
           ((if isMC (this w) then inTaus ≫= correction_warning s else []) ++
            [(MSG.ERROR, "Failed to set original object links -- MET rebuilding cannot proceed.")]) w).
      2:{ unfold after_tool, set_tool_active, add_tool_call, add_msg. cbn.
          by rewrite <- !app_assoc. }
      unfold mbind, M_bind, ANA_CHECK, mret, M_ret.
      repeat case_match; simplify_eq; done.
  - rewrite decide_True by done.
    unfold mbind, M_bind, ANA_MSG_ERROR, modify, return_FAILURE. cbn.
    unfold configure_failed, after_tool, add_msg, add_tool_call. done.
Qed.
(** ** The three records of one variation *)

Lemma publish_result a s inTaus w :
  publish a s inTaus w =
    if decide (evtStore w !! outSCContainerName a s = None) then
      let st1 := <[outSCContainerName a s := ObjTauJetContainer (out_copy a s inTaus)]> (evtStore w) in
      if decide (st1 !! outSCAuxContainerName a s = None) then
        let st2 := <[outSCAuxContainerName a s := ObjShallowAuxContainer (mkShallowAux inTaus)]> st1 in
        if decide (st2 !! outContainerName a s = None) then
          (Some tt, set_evtStore (published a s inTaus (evtStore w)) w)
        else (None, set_evtStore st2 w)
      else (None, set_evtStore st1 w)
    else (None, w).
Proof.
  unfold publish, mbind, M_bind, ANA_CHECK, record, published.
  destruct (evtStore w !! outSCContainerName a s) eqn:H1.
  { by rewrite decide_False. }
  rewrite decide_True by done. cbn.
  destruct (_ !! outSCAuxContainerName a s) eqn:H2.
  { by rewrite decide_False. }
  rewrite decide_True by done. cbn.
  destruct (_ !! outContainerName a s) eqn:H3.
  { by rewrite decide_False. }
  rewrite decide_True by done. done.
Qed.

Lemma publish_frame a s inTaus w r w' :
  publish a s inTaus w = (r, w') →
  w' = set_evtStore (evtStore w') w ∧
  evtStore w ⊆ evtStore w' ∧
  (∀ k obj, evtStore w' !! k = Some obj →
     evtStore w !! k = Some obj ∨ is_output a inTaus s k obj).
Proof.
  rewrite publish_result. unfold published, is_output. cbv zeta.
  repeat case_decide; intros [= <- <-]; cbn.
  - split; [done|]. split.
    + etrans; [|by apply insert_subseteq]. etrans; [|by apply insert_subseteq].
      by apply insert_subseteq.
    + intros k obj. rewrite !lookup_insert. repeat case_decide; naive_solver.
  - split; [done|]. split.
    + etrans; [|by apply insert_subseteq]. by apply insert_subseteq.
    + intros k obj. rewrite !lookup_insert. repeat case_decide; naive_solver.
  - split; [done|]. split.
    + by apply insert_subseteq.
    + intros k obj. rewrite !lookup_insert. repeat case_decide; naive_solver.
  - split; [by destruct w|]. split; [done|]. naive_solver.
Qed.

Lemma publish_Some a s inTaus w w' :
  publish a s inTaus w = (Some tt, w') →
  w' = set_evtStore (published a s inTaus (evtStore w)) w ∧
  Forall (λ k, evtStore w !! k = None) (output_keys a s) ∧
  NoDup (output_keys a s) ∧
  (∀ k obj, is_output a inTaus s k obj → evtStore w' !! k = Some obj).
Proof.
  rewrite publish_result. cbv zeta.
  repeat case_decide; intros [= <-]; cbn.
  rename select (_ !! outSCContainerName a s = None) into K1.
  rename select (_ !! outSCAuxContainerName a s = None) into K2.
  rename select (_ !! outContainerName a s = None) into K3.
  apply lookup_insert_None in K3 as [K3 ?].
  apply lookup_insert_None in K3 as [K3 ?].
  apply lookup_insert_None in K2 as [K2 ?].
  split; [done|]. split; [|split].
  - unfold output_keys. repeat constructor; done.
  - unfold output_keys.
    apply NoDup_cons_2; [|apply NoDup_cons_2; [|apply NoDup_singleton]].
    + rewrite !elem_of_cons, elem_of_nil. intros [?|[?|[]]]; done.
    + rewrite !elem_of_cons, elem_of_nil. intros [?|[]]; done.
  - unfold is_output, published. intros k obj [[-> ->]|[[-> ->]|[-> ->]]].
    + rewrite lookup_insert_ne by done. rewrite lookup_insert_ne by done.
      by rewrite lookup_insert_eq.
    + rewrite lookup_insert_ne by done. by rewrite lookup_insert_eq.
    + by rewrite lookup_insert_eq.
Qed.

Lemma publish_succeeds a s inTaus w :
  Forall (λ k, evtStore w !! k = None) (output_keys a s) →
  NoDup (output_keys a s) →
  publish a s inTaus w = (Some tt, set_evtStore (published a s inTaus (evtStore w)) w).
Proof.
  unfold output_keys. intros Hfresh Hnd.
  apply Forall_cons in Hfresh as [H1 Hfresh].
  apply Forall_cons in Hfresh as [H2 Hfresh].
  apply Forall_cons in Hfresh as [H3 _].
  apply NoDup_cons in Hnd as [N1 Hnd]. apply NoDup_cons in Hnd as [N2 _].
  rewrite publish_result. cbv zeta.
  rewrite decide_True by done.
  rewrite decide_True.
  2:{ apply lookup_insert_None. split; [done|]. set_solver. }
  rewrite decide_True; [done|].
  apply lookup_insert_None. split; [|set_solver].
  apply lookup_insert_None. split; [done|set_solver].
Qed.

(** ** One variation, then the whole list *)

Lemma syst_calls_real_data a s inTaus :
  isMC a = false → Forall is_configure_call (syst_calls a s inTaus).
Proof. unfold syst_calls. intros ->. by repeat constructor. Qed.

Lemma execute_syst_frame inTaus vec s w r w' :
  execute_syst inTaus vec s w = (r, w') →
  this w' = this w ∧
  evtStore w ⊆ evtStore w' ∧
  (∀ k obj, evtStore w' !! k = Some obj →
     evtStore w !! k = Some obj ∨ is_output (this w) inTaus s k obj) ∧
  ∃ calls, tool_calls w' = tool_calls w ++ calls ∧
           (isMC (this w) = false → Forall is_configure_call calls).
Proof.
  rewrite execute_syst_unfold.
  destruct (applySystematicVariation s).
  - destruct (publish _ _ _ _) as [r0 w0] eqn:Hp.
    apply publish_frame in Hp as (Hw0 & Hsub & Hnew).
    intros Heq. assert (w' = w0) as -> by (destruct r0; by simplify_eq). clear Heq.
    rewrite Hw0. cbn. split; [done|]. split; [done|]. split; [done|].
    eexists. split; [done|]. apply syst_calls_real_data.
  - intros [= <- <-]. cbn. split; [done|]. split; [done|]. split; [by left|].
    eexists. split; [done|]. intros _. by repeat constructor.
Qed.

Lemma execute_syst_Some inTaus vec s w vec' w' :
  execute_syst inTaus vec s w = (Some vec', w') →
  applySystematicVariation s = CP.SystematicCode.Ok ∧
  vec' = vec ++ [CP.name s] ∧
  w' = set_evtStore (published (this w) s inTaus (evtStore w))
         (after_tool s (syst_calls (this w) s inTaus) (syst_msgs (this w) s inTaus) w) ∧
  Forall (λ k, evtStore w !! k = None) (output_keys (this w) s) ∧
  NoDup (output_keys (this w) s) ∧
  (∀ k obj, is_output (this w) inTaus s k obj → evtStore w' !! k = Some obj).
Proof.
  rewrite execute_syst_unfold.
  destruct (applySystematicVariation s); [|done].
  destruct (publish _ _ _ _) as [[[]|] w0] eqn:Hp; [|done].
  intros [= <- <-]. apply publish_Some in Hp as (-> & Hfresh & Hnd & Hout).
  done.
Qed.

Lemma execute_syst_succeeds inTaus vec s w :
  applySystematicVariation s = CP.SystematicCode.Ok →
  Forall (λ k, evtStore w !! k = None) (output_keys (this w) s) →
  NoDup (output_keys (this w) s) →
  execute_syst inTaus vec s w =
    (Some (vec ++ [CP.name s]),
     set_evtStore (published (this w) s inTaus (evtStore w))
       (after_tool s (syst_calls (this w) s inTaus) (syst_msgs (this w) s inTaus) w)).
Proof.
  intros Hcfg Hfresh Hnd. rewrite execute_syst_unfold, Hcfg.
  rewrite publish_succeeds; done.
Qed.

Lemma execute_syst_not_configured inTaus vec s w :
  applySystematicVariation s ≠ CP.SystematicCode.Ok →
  execute_syst inTaus vec s w = (None, configure_failed s w).
Proof.
  intros Hcfg. rewrite execute_syst_unfold.
  by destruct (applySystematicVariation s).
Qed.

Lemma execute_systs_cons inTaus vec s systs w :
  execute_systs inTaus vec (s :: systs) w =
    match execute_syst inTaus vec s w with
    | (Some vec1, w1) => execute_systs inTaus vec1 systs w1
    | (None, w1) => (None, w1)
    end.
Proof. done. Qed.

Lemma execute_systs_app inTaus vec systs1 systs2 w :
  execute_systs inTaus vec (systs1 ++ systs2) w =
    match execute_systs inTaus vec systs1 w with
    | (Some vec1, w1) => execute_systs inTaus vec1 systs2 w1
    | (None, w1) => (None, w1)
    end.
Proof.
  revert vec w. induction systs1 as [|s systs1 IH]; intros vec w; [done|].
  rewrite <- app_comm_cons, !execute_systs_cons.
  destruct (execute_syst inTaus vec s w) as [[vec1|] w1]; [apply IH|done].
Qed.

Lemma execute_systs_frame inTaus systs : ∀ vec w r w',
  execute_systs inTaus vec systs w = (r, w') →
  this w' = this w ∧
  evtStore w ⊆ evtStore w' ∧
  (∀ k obj, evtStore w' !! k = Some obj →
     evtStore w !! k = Some obj ∨ ∃ s, s ∈ systs ∧ is_output (this w) inTaus s k obj) ∧
  ∃ calls, tool_calls w' = tool_calls w ++ calls ∧
           (isMC (this w) = false → Forall is_configure_call calls).
Proof.
  induction systs as [|s systs IH]; intros vec w r w'.
  - intros [= <- <-]. split; [done|]. split; [done|]. split; [by left|].
    exists []. by rewrite app_nil_r.
  - rewrite execute_systs_cons.
    destruct (execute_syst inTaus vec s w) as [r1 w1] eqn:H1.
    apply execute_syst_frame in H1 as (Hthis & Hsub & Hnew & calls1 & Hcalls & Hreal).
    destruct r1 as [vec1|].
    + intros H2. apply IH in H2 as (Hthis2 & Hsub2 & Hnew2 & calls2 & Hcalls2 & Hreal2).
      rewrite Hthis in *. split; [done|]. split; [by etrans|]. split.
      * intros k obj Hk. destruct (Hnew2 k obj Hk) as [Hk1|(s' & Hin & Hout)].
        -- destruct (Hnew k obj Hk1) as [?|?]; [by left|right].
           exists s. split; [by left|done].
        -- right. exists s'. split; [by right|done].
      * exists (calls1 ++ calls2). rewrite Hcalls2, Hcalls, app_assoc. split; [done|].
        intros Hmc. apply Forall_app; auto.
    + intros [= <- <-]. split; [done|]. split; [done|]. split.
      * intros k obj Hk. destruct (Hnew k obj Hk) as [?|?]; [by left|right].
        exists s. split; [by left|done].
      * by exists calls1.
Qed.

Lemma execute_systs_Some inTaus systs : ∀ vec w vec' w',
  execute_systs inTaus vec systs w = (Some vec', w') →
  vec' = vec ++ (CP.name <$> systs) ∧
  Forall (λ s, applySystematicVariation s = CP.SystematicCode.Ok) systs ∧
  (∀ s k obj, s ∈ systs → is_output (this w) inTaus s k obj → evtStore w' !! k = Some obj) ∧
  tool_calls w' = tool_calls w ++ (systs ≫= λ s, syst_calls (this w) s inTaus) ∧
  msg w' = msg w ++ (systs ≫= λ s, syst_msgs (this w) s inTaus) ∧
  tool_active w' = default (tool_active w) (last systs).
Proof.
  induction systs as [|s systs IH]; intros vec w vec' w'.
  - intros [= <- <-]. rewrite !app_nil_r. split; [done|]. split; [done|].
    split; [|done]. intros s k obj Hin. by apply elem_of_nil in Hin.
  - rewrite execute_systs_cons.
    destruct (execute_syst inTaus vec s w) as [[vec1|] w1] eqn:H1; [|done].
    intros H2.
    pose proof (execute_systs_frame _ _ _ _ _ _ H2) as (_ & Hsub & _).
    apply IH in H2 as (-> & Hok & Hout & Hcalls & Hmsg & Hact).
    apply execute_syst_Some in H1 as (Hcfg & -> & Hw1 & _ & _ & Hout1).
    assert (this w1 = this w) as Hthis by (by rewrite Hw1).
    rewrite Hthis in *. split; [|split; [|split; [|split; [|split]]]].
    + by rewrite fmap_cons, <- app_assoc.
    + by constructor.
    + intros s' k obj [->|Hin]%elem_of_cons Hk.
      * eapply lookup_weaken; [|exact Hsub]. by apply Hout1.
      * by eapply Hout.
    + rewrite Hcalls, Hw1, bind_cons. cbn [tool_calls set_evtStore after_tool].
      by rewrite <- app_assoc.
    + rewrite Hmsg, Hw1, bind_cons. cbn [msg set_evtStore after_tool].
      by rewrite <- app_assoc.
    + rewrite Hact, Hw1. cbn. rewrite last_cons. by destruct (last systs).
Qed.

Lemma execute_systs_succeeds inTaus systs : ∀ vec w,
  Forall (λ s, applySystematicVariation s = CP.SystematicCode.Ok) systs →
  NoDup (systs ≫= output_keys (this w)) →
  Forall (λ k, evtStore w !! k = None) (systs ≫= output_keys (this w)) →
  ∃ w', execute_systs inTaus vec systs w = (Some (vec ++ (CP.name <$> systs)), w').
Proof.
  induction systs as [|s systs IH]; intros vec w Hok Hnd Hfresh.
  - exists w. by rewrite app_nil_r.
  - apply Forall_cons in Hok as [Hcfg Hok].
    rewrite bind_cons in Hnd, Hfresh.
    apply NoDup_app in Hnd as (Hnd1 & Hdisj & Hnd2).
    apply Forall_app in Hfresh as [Hfresh1 Hfresh2].
    rewrite execute_systs_cons, execute_syst_succeeds by done.
    set (w1 := set_evtStore _ _).
    destruct (IH (vec ++ [CP.name s]) w1) as [w' Hw']; [done|done| |].
    + apply Forall_forall. intros k Hk. subst w1. cbn. unfold published.
      rewrite Forall_forall in Hfresh2.
      assert (k ∉ output_keys (this w) s) as Hnot by (intros Hin; by eapply Hdisj).
      unfold output_keys in Hnot. rewrite !not_elem_of_cons in Hnot.
      destruct Hnot as (? & ? & ? & _).
      rewrite !lookup_insert_ne by done. by apply Hfresh2.
    + exists w'. by rewrite Hw', fmap_cons, <- app_assoc.
Qed.

(** ** The whole of execute *)

Lemma execute_body_unfold w :
  execute_body w =
    match retrieve_EventInfo (m_eventInfoContainerName (props (this w))) w with
    | None => (None, begin_event w)
    | Some _ =>
        match retrieve_TauJetContainer (m_inContainerName (props (this w))) w with
        | None => (None, begin_event w)
        | Some inTaus =>
            match execute_systs inTaus [] (m_systList (this w)) (begin_event w) with
            | (None, w1) => (None, w1)
            | (Some vec, w1) =>
                ANA_CHECK (record (ObjStringVector vec)
                             (m_outputAlgoSystNames (props (this w)))) w1
            end
        end
    end.
Proof.
  unfold execute_body.
  unfold mbind at 1, M_bind at 1, modify at 1.
  fold (count_event (this w)). fold (begin_event w).
  unfold mbind at 1, M_bind at 1, get_this at 1.
  unfold mbind at 1, M_bind at 1, ANA_CHECK_retrieve at 1.
  change (retrieve_EventInfo ?k (begin_event w)) with (retrieve_EventInfo k w).
  change (this (begin_event w)) with (count_event (this w)).
  change (props (count_event (this w))) with (props (this w)).
  change (m_systList (count_event (this w))) with (m_systList (this w)).
  destruct (retrieve_EventInfo _ w) as [ei|] eqn:Hei; [|done].
  unfold mbind at 1, M_bind at 1, ANA_CHECK_retrieve at 1.
  change (retrieve_EventInfo ?k (begin_event w)) with (retrieve_EventInfo k w).
  rewrite Hei.
  unfold mbind at 1, M_bind at 1, ANA_CHECK_retrieve at 1.
  change (retrieve_TauJetContainer ?k (begin_event w)) with (retrieve_TauJetContainer k w).
  destruct (retrieve_TauJetContainer _ w) as [inTaus|]; [|done].
  unfold mbind at 1, M_bind at 1.
  by destruct (execute_systs _ _ _ _) as [[vec|] w1].
Qed.

Lemma execute_unfold w :
  execute w =
    match retrieve_EventInfo (m_eventInfoContainerName (props (this w))) w with
    | None => (FAILURE, begin_event w)
    | Some _ =>
        match retrieve_TauJetContainer (m_inContainerName (props (this w))) w with
        | None => (FAILURE, begin_event w)
        | Some inTaus =>
            match execute_systs inTaus [] (m_systList (this w)) (begin_event w) with
            | (None, w1) => (FAILURE, w1)
            | (Some vec, w1) =>
                record (ObjStringVector vec) (m_outputAlgoSystNames (props (this w))) w1
            end
        end
    end.
Proof.
  unfold execute, status_of. rewrite execute_body_unfold.
  destruct (retrieve_EventInfo _ w) as [ei|]; [|done].
  destruct (retrieve_TauJetContainer _ w) as [inTaus|]; [|done].
  destruct (execute_systs _ _ _ _) as [[vec|] w1]; [|done].
  unfold ANA_CHECK. by destruct (record _ _ w1) as [[] w2].
Qed.

(** A successful event, taken apart. *)
Lemma execute_SUCCESS w w' :
  execute w = (SUCCESS, w') →
  ∃ ei inTaus vec w1,
    retrieve_EventInfo (m_eventInfoContainerName (props (this w))) w = Some ei ∧
    retrieve_TauJetContainer (m_inContainerName (props (this w))) w = Some inTaus ∧
    execute_systs inTaus [] (m_systList (this w)) (begin_event w) = (Some vec, w1) ∧
    evtStore w1 !! m_outputAlgoSystNames (props (this w)) = None ∧
    w' = set_evtStore
           (<[m_outputAlgoSystNames (props (this w)) := ObjStringVector vec]> (evtStore w1)) w1.
Proof.
  rewrite execute_unfold.
  destruct (retrieve_EventInfo _ w) as [ei|]; [|done].
  destruct (retrieve_TauJetContainer _ w) as [inTaus|]; [|done].
  destruct (execute_systs _ _ _ _) as [[vec|] w1] eqn:Hloop; [|done].
  unfold record. destruct (evtStore w1 !! _) eqn:Hfree; [done|].
  intros [= <-]. by exists ei, inTaus, vec, w1.
Qed.

(** The store is only ever added to, whatever the outcome, and what is
    added is an output of some variation or the list of names. *)
Lemma execute_store_grows w st w' :
  execute w = (st, w') → evtStore w ⊆ evtStore w'.
Proof.
  rewrite execute_unfold.
  destruct (retrieve_EventInfo _ w) as [ei|]; [|by intros [= <- <-]].
  destruct (retrieve_TauJetContainer _ w) as [inTaus|]; [|by intros [= <- <-]].
  destruct (execute_systs _ _ _ _) as [[vec|] w1] eqn:Hloop.
  - apply execute_systs_frame in Hloop as (_ & Hsub & _).
    unfold record. destruct (evtStore w1 !! _) eqn:Hfree; intros [= <- <-]; [done|].
    cbn. etrans; [exact Hsub|]. by apply insert_subseteq.
  - apply execute_systs_frame in Hloop as (_ & Hsub & _). by intros [= <- <-].
Qed.

(** ** The provenance links *)

Lemma setOriginalObjectLinks_lookup original : ∀ idx copy ok out,
  setOriginalObjectLinks idx original copy = (ok, out) →
  length out = length copy ∧
  (∀ i c, copy !! i = Some c →
     out !! i = Some c ∨ out !! i = Some (setLink (idx + i) c)) ∧
  (ok = true → length copy ≤ length original →
   ∀ i c, copy !! i = Some c → out !! i = Some (setLink (idx + i) c)).
Proof.
  induction original as [|o original IH]; intros idx copy ok out.
  - intros Hr. assert ((ok, out) = (true, copy)) as Heq by (by destruct copy).
    simplify_eq. split; [done|]. split; [intros; by left|].
    intros _ Hle i c Hc. apply lookup_lt_Some in Hc. cbn in Hle. lia.
  - destruct copy as [|c0 copy].
    { intros [= <- <-]. split; [done|]. split; [by left|]. done. }
    cbn. destruct (canLink o c0).
    + destruct (setOriginalObjectLinks (S idx) original copy) as [ok' rest] eqn:Hrec.
      intros [= <- <-]. apply IH in Hrec as (Hlen & Hany & Hall).
      split; [cbn; by rewrite Hlen|]. split.
      * intros [|i] c Hc; simpl in *.
        -- simplify_eq. right. by rewrite Nat.add_0_r.
        -- destruct (Hany i c Hc) as [?|Hl]; [by left|right].
           by rewrite Hl, Nat.add_succ_r.
      * intros Hok Hle [|i] c Hc; simpl in *.
        -- simplify_eq. by rewrite Nat.add_0_r.
        -- rewrite Nat.add_succ_r. apply Hall; [done|lia|done].
    + intros [= <- <-]. split; [done|]. split; [by left|done].
Qed.

Lemma setOriginalObjectLink_lookup original copy :
  length (setOriginalObjectLink original copy).2 = length copy ∧
  (∀ i c, copy !! i = Some c →
     (setOriginalObjectLink original copy).2 !! i = Some c ∨
     (setOriginalObjectLink original copy).2 !! i = Some (setLink i c)) ∧
  ((setOriginalObjectLink original copy).1 = true →
   ∀ i c, copy !! i = Some c →
     (setOriginalObjectLink original copy).2 !! i = Some (setLink i c)).
Proof.
  unfold setOriginalObjectLink. case_decide as Hlen; [|by split; [|split; [left|]]].
  destruct (setOriginalObjectLinks 0 original copy) as [ok out] eqn:Hl.
  apply setOriginalObjectLinks_lookup in Hl as (? & Hany & Hall).
  split; [done|]. split; [exact Hany|].
  cbn. intros Hok. apply Hall; [done|lia].
Qed.

Lemma calibrated_lookup a s inTaus i :
  calibrated a s inTaus !! i = (λ t, if isMC a then corrected s t else t) <$> inTaus !! i.
Proof.
  unfold calibrated. destruct (isMC a).
  - by rewrite list_lookup_fmap.
  - by destruct (inTaus !! i).
Qed.

Lemma calibrated_length a s inTaus : length (calibrated a s inTaus) = length inTaus.
Proof. unfold calibrated. destruct (isMC a); [apply length_fmap|done]. Qed.

Lemma out_copy_length a s inTaus : length (out_copy a s inTaus) = length inTaus.
Proof.
  unfold out_copy.
  destruct (setOriginalObjectLink_lookup inTaus (calibrated a s inTaus)) as (-> & _).
  apply calibrated_length.
Qed.

Lemma out_copy_lookup a s inTaus i t :
  inTaus !! i = Some t →
  ∃ c, out_copy a s inTaus !! i = Some c ∧ comes_from a s i t c.
Proof.
  intros Ht. unfold out_copy, comes_from.
  destruct (setOriginalObjectLink_lookup inTaus (calibrated a s inTaus)) as (_ & Hany & _).
  destruct (Hany i (if isMC a then corrected s t else t)) as [Hl|Hl].
  - by rewrite calibrated_lookup, Ht.
  - eexists. split; [exact Hl|by left].
  - eexists. split; [exact Hl|by right].
Qed.

Lemma out_copy_linked a s inTaus i c :
  links_established a s inTaus = true →
  out_copy a s inTaus !! i = Some c →
  originalObjectLink c = Some i.
Proof.
  unfold links_established, out_copy. intros Hok Hc.
  destruct (setOriginalObjectLink_lookup inTaus (calibrated a s inTaus)) as (Hlen & _ & Hall).
  destruct (calibrated a s inTaus !! i) as [c0|] eqn:Hc0.
  - rewrite (Hall Hok i c0 Hc0) in Hc. by simplify_eq.
  - apply lookup_ge_None in Hc0. apply lookup_lt_Some in Hc. lia.
Qed.

Lemma out_copy_links a s inTaus :
  links_established a s inTaus = true →
  originalObjectLink <$> out_copy a s inTaus = Some <$> seq 0 (length inTaus).
Proof.
  intros Hok. apply list_eq. intros i.
  rewrite !list_lookup_fmap.
  destruct (out_copy a s inTaus !! i) as [c|] eqn:Hc.
  - pose proof (lookup_lt_Some _ _ _ Hc) as Hlt. rewrite out_copy_length in Hlt.
    rewrite lookup_seq_lt by done. cbn. f_equal. by eapply out_copy_linked.
  - apply lookup_ge_None in Hc. rewrite out_copy_length in Hc.
    by rewrite lookup_seq_ge.
Qed.

(** ** String keys *)

Lemma append_empty (s : string) : s +:+ "" = s.
Proof.
  induction s as [|c s IH]; [done|].
  change (String c (s +:+ "") = String c s). by rewrite IH.
Qed.

(** ** What execute adds to the store *)

Lemma execute_this w : this (execute w).2 = count_event (this w).
Proof.
  rewrite execute_unfold.
  destruct (retrieve_EventInfo _ w) as [ei|]; [|done].
  destruct (retrieve_TauJetContainer _ w) as [inTaus|]; [|done].
  destruct (execute_systs _ _ _ _) as [[vec|] w1] eqn:Hloop;
    apply execute_systs_frame in Hloop as (Hthis & _); [|done].
  unfold record. by destruct (evtStore w1 !! _).
Qed.

Lemma execute_new_objects w st w' k obj :
  execute w = (st, w') →
  evtStore w' !! k = Some obj →
  evtStore w !! k = Some obj ∨
  (∃ inTaus s,
     retrieve_TauJetContainer (m_inContainerName (props (this w))) w = Some inTaus ∧
     s ∈ m_systList (this w) ∧ is_output (this w) inTaus s k obj) ∨
  (st = SUCCESS ∧ k = m_outputAlgoSystNames (props (this w)) ∧
   obj = ObjStringVector (CP.name <$> m_systList (this w))).
Proof.
  rewrite execute_unfold.
  destruct (retrieve_EventInfo _ w) as [ei|]; [|intros [= <- <-]; by left].
  destruct (retrieve_TauJetContainer _ w) as [inTaus|]; [|intros [= <- <-]; by left].
  destruct (execute_systs _ _ _ _) as [[vec|] w1] eqn:Hloop.
  - pose proof (execute_systs_Some _ _ _ _ _ _ Hloop) as (-> & _).
    apply execute_systs_frame in Hloop as (_ & _ & Hnew & _).
    unfold record. destruct (evtStore w1 !! _) as [old|] eqn:Hfree; intros [= <- <-].
    + intros Hk. destruct (Hnew k obj Hk) as [?|(s & Hin & Hout)]; [by left|].
      right; left. by exists inTaus, s.
    + cbn. rewrite lookup_insert. case_decide as Hkey.
      * intros [= <-]. right; right. done.
      * intros Hk. destruct (Hnew k obj Hk) as [?|(s & Hin & Hout)]; [by left|].
        right; left. by exists inTaus, s.
  - apply execute_systs_frame in Hloop as (_ & _ & Hnew & _).
    intros [= <- <-] Hk.
    destruct (Hnew k obj Hk) as [?|(s & Hin & Hout)]; [by left|].
    right; left. by exists inTaus, s.
Qed.

Lemma execute_outputs w w' :
  execute w = (SUCCESS, w') →
  ∃ inTaus,
    retrieve_TauJetContainer (m_inContainerName (props (this w))) w = Some inTaus ∧
    evtStore w' !! m_outputAlgoSystNames (props (this w)) =
      Some (ObjStringVector (CP.name <$> m_systList (this w))) ∧
    Forall (λ s, applySystematicVariation s = CP.SystematicCode.Ok) (m_systList (this w)) ∧
    (∀ s k obj, s ∈ m_systList (this w) → is_output (this w) inTaus s k obj →
       evtStore w' !! k = Some obj) ∧
    tool_calls w' =
      tool_calls w ++ (m_systList (this w) ≫= λ s, syst_calls (this w) s inTaus) ∧
    msg w' = msg w ++ (m_systList (this w) ≫= λ s, syst_msgs (this w) s inTaus).
Proof.
  intros (ei & inTaus & vec & w1 & _ & Hin & Hloop & Hfree & ->)%execute_SUCCESS.
  apply execute_systs_Some in Hloop as (-> & Hok & Hout & Hcalls & Hmsg & _).
  exists inTaus. split; [done|]. split; [|split; [done|split; [|done]]].
  - cbn. by rewrite lookup_insert_eq.
  - intros s k obj Hs Hk. cbn. rewrite lookup_insert_ne; [by eapply Hout|].
    intros <-. by rewrite (Hout _ _ _ Hs Hk) in Hfree.
Qed.

(** Enough for an event to succeed: the inputs are there, every
    variation can be activated, the keys are pairwise different and
    free. *)

Lemma execute_succeeds w ei inTaus :
  retrieve_EventInfo (m_eventInfoContainerName (props (this w))) w = Some ei →
  retrieve_TauJetContainer (m_inContainerName (props (this w))) w = Some inTaus →
  Forall (λ s, applySystematicVariation s = CP.SystematicCode.Ok) (m_systList (this w)) →
  NoDup (event_keys (this w)) →
  Forall (λ k, evtStore w !! k = None) (event_keys (this w)) →
  (execute w).1 = SUCCESS.
Proof.
  unfold event_keys. intros Hei Hin Hok Hnd Hfresh.
  apply NoDup_app in Hnd as (Hnd & Hdisj & _).
  apply Forall_app in Hfresh as [Hfresh Hfree].
  rewrite Forall_singleton in Hfree.
  rewrite execute_unfold, Hei, Hin.
  destruct (execute_systs_succeeds inTaus (m_systList (this w)) [] (begin_event w))
    as [w1 Hloop]; [done..|].
  rewrite Hloop.
  apply execute_systs_frame in Hloop as (_ & _ & Hnew & _).
  unfold record.
  destruct (evtStore w1 !! _) as [obj|] eqn:Hk; [|done].
  destruct (Hnew _ _ Hk) as [Hold|(s & Hs & Hout)].
  - change (evtStore (begin_event w)) with (evtStore w) in Hold. 
    by rewrite Hfree in Hold.
  - exfalso. eapply (Hdisj (m_outputAlgoSystNames (props (this w)))); [|by left].
    apply list_elem_of_bind. exists s. split; [|done].
    unfold output_keys. rewrite !elem_of_cons.
    destruct Hout as [[-> _]|[[-> _]|[-> _]]]; auto.
Qed.

(** ** initialize *)

Lemma collect_SystTausNames_spec systName systs : ∀ acc w,
  ∃ names msgs,
    collect_SystTausNames systName systs acc w =
      (Some names, after_tool (tool_active w) [] msgs w).
Proof.
  induction systs as [|s systs IH]; intros acc w.
  - exists acc, []. cbn. unfold after_tool. by rewrite !app_nil_r, world_eta.
  - cbn. case_decide.
    + eexists acc, [_]. unfold mbind, M_bind, ANA_MSG_INFO, modify, after_tool, add_msg.
      cbn. by rewrite app_nil_r.
    + unfold mbind, M_bind, ANA_MSG_INFO at 1, modify.
      destruct (IH (acc ++ [CP.name s]) (add_msg MSG.INFO (tab +:+ " " +:+ CP.name s) w))
        as (names & msgs & ->).
      eexists names, (_ :: msgs). unfold after_tool, add_msg. cbn.
      by rewrite !app_nil_r, <- app_assoc.
Qed.

Lemma initialize_Some w0 w1 :
  initialize w0 = (Some tt, w1) →
  let p := props (this w0) in
  props (this w1) = p ∧
  m_outAuxContainerName (this w1) = m_outContainerName p +:+ "Aux." ∧
  m_outSCContainerName (this w1) = m_outContainerName p +:+ "ShallowCopy" ∧
  m_outSCAuxContainerName (this w1) = (m_outContainerName p +:+ "ShallowCopy") +:+ "Aux." ∧
  m_systList (this w1) =
    getListofSystematics recommendedSystematics (m_systName p) (m_systVal p) ∧
  m_inContainerName p ≠ "".
Proof.
  unfold initialize.
  unfold mbind, M_bind, ANA_MSG_INFO, ANA_MSG_ERROR, modify, get_this, return_FAILURE,
    ANA_CHECK, record, writeSystematicsListHist, mret, M_ret.
  cbn -[collect_SystTausNames].
  repeat first
    [ match goal with
      | |- context [collect_SystTausNames ?n ?l ?acc ?w] =>
          let names := fresh "names" in
          let msgs := fresh "msgs" in
          destruct (collect_SystTausNames_spec n l acc w) as (names & msgs & ->)
      end
    | progress (case_match; simplify_eq; cbn -[collect_SystTausNames] in * ) ];
    try done; intros [= <-]; cbn; try done; unfold modify in *; simplify_eq; cbn; done.
Qed.

(** ** What the outcome of an event depends on *)

Lemma setup_forms a1 a2 s inTaus :
  setup a1 = setup a2 →
  outSCContainerName a1 s = outSCContainerName a2 s ∧
  outSCAuxContainerName a1 s = outSCAuxContainerName a2 s ∧
  outContainerName a1 s = outContainerName a2 s ∧
  out_copy a1 s inTaus = out_copy a2 s inTaus ∧
  out_view a1 s inTaus = out_view a2 s inTaus.
Proof. destruct a1, a2. unfold setup. cbn. intros [= -> -> -> -> ->]. done. Qed.

Lemma execute_syst_depends inTaus vec s w1 w2 :
  setup (this w1) = setup (this w2) →
  evtStore w1 = evtStore w2 →
  (execute_syst inTaus vec s w1).1 = (execute_syst inTaus vec s w2).1 ∧
  evtStore (execute_syst inTaus vec s w1).2 = evtStore (execute_syst inTaus vec s w2).2 ∧
  setup (this (execute_syst inTaus vec s w1).2) = setup (this (execute_syst inTaus vec s w2).2).
Proof.
  intros Hsetup Hstore. rewrite !execute_syst_unfold.
  destruct (applySystematicVariation s); [|done].
  rewrite !publish_result. cbv zeta. unfold published.
  cbn [evtStore after_tool this].
  destruct (setup_forms _ _ s inTaus Hsetup) as (-> & -> & -> & -> & ->).
  rewrite Hstore.
  repeat case_decide; done.
Qed.

Lemma execute_systs_depends inTaus systs : ∀ vec w1 w2,
  setup (this w1) = setup (this w2) →
  evtStore w1 = evtStore w2 →
  (execute_systs inTaus vec systs w1).1 = (execute_systs inTaus vec systs w2).1 ∧
  evtStore (execute_systs inTaus vec systs w1).2 =
    evtStore (execute_systs inTaus vec systs w2).2.
Proof.
  induction systs as [|s systs IH]; intros vec w1 w2 Hsetup Hstore; [done|].
  rewrite !execute_systs_cons.
  destruct (execute_syst_depends inTaus vec s w1 w2 Hsetup Hstore) as (H1 & H2 & H3).
  destruct (execute_syst inTaus vec s w1) as [[v1|] u1],
           (execute_syst inTaus vec s w2) as [[v2|] u2];
    cbn [fst snd] in *; try discriminate.
  - injection H1 as ->. by apply IH.
  - by split.
Qed.

Lemma execute_depends w1 w2 :
  setup (this w1) = setup (this w2) →
  evtStore w1 = evtStore w2 →
  (execute w1).1 = (execute w2).1 ∧ evtStore (execute w1).2 = evtStore (execute w2).2.
Proof.
  intros Hsetup Hstore. rewrite !execute_unfold.
  unfold retrieve_EventInfo, retrieve_TauJetContainer.
  assert (props (this w1) = props (this w2)) as Hp by (unfold setup in Hsetup; congruence).
  assert (m_systList (this w1) = m_systList (this w2)) as Hl
    by (unfold setup in Hsetup; congruence).
  rewrite Hp, Hl, Hstore.
  destruct (evtStore w2 !! m_eventInfoContainerName _) as [[]|]; try done.
  destruct (evtStore w2 !! m_inContainerName _) as [[| inTaus | | |]|]; try done.
  destruct (execute_systs_depends inTaus (m_systList (this w2)) []
              (begin_event w1) (begin_event w2)) as (H1 & H2).
  { unfold setup in *. cbn. congruence. }
  { done. }
  destruct (execute_systs _ _ _ (begin_event w1)) as [[v1|] u1],
           (execute_systs _ _ _ (begin_event w2)) as [[v2|] u2];
    cbn [fst snd] in *; try discriminate; [|by split].
  injection H1 as ->.
  unfold record. rewrite H2. by destruct (evtStore u2 !! _).
Qed.

(** ** Further consequences *)

Lemma execute_syst_fails_at inTaus L1 s L2 : ∀ vec w,
  applySystematicVariation s ≠ CP.SystematicCode.Ok →
  (execute_systs inTaus vec (L1 ++ s :: L2) w).1 = None.
Proof.
  intros vec w Hcfg. rewrite execute_systs_app.
  destruct (execute_systs inTaus vec L1 w) as [[vec1|] w1]; [|done].
  rewrite execute_systs_cons, execute_syst_not_configured by done. done.
Qed.

Lemma initialized_names w0 w1 a :
  initialize w0 = (Some tt, w1) →
  setup a = setup (this w1) →
  m_outSCContainerName a = m_outContainerName (props a) +:+ "ShallowCopy" ∧
  m_outSCAuxContainerName a = (m_outContainerName (props a) +:+ "ShallowCopy") +:+ "Aux." ∧
  m_systList a =
    getListofSystematics recommendedSystematics (m_systName (props a)) (m_systVal (props a)).
Proof.
  intros (Hp & _ & Hsc & Hscaux & Hlist & _)%initialize_Some Hsetup.
  unfold setup in Hsetup. injection Hsetup as Hp' _ Hsc' Hscaux' Hlist'.
  rewrite Hp', Hsc', Hscaux', Hlist', Hp. done.
Qed.

Lemma execute_calls w st w' :
  execute w = (st, w') →
  ∃ calls, tool_calls w' = tool_calls w ++ calls ∧
           (isMC (this w) = false → Forall is_configure_call calls).
Proof.
  rewrite execute_unfold.
  destruct (retrieve_EventInfo _ w) as [ei|].
  2:{ intros [= <- <-]. exists []. by rewrite app_nil_r. }
  destruct (retrieve_TauJetContainer _ w) as [inTaus|].
  2:{ intros [= <- <-]. exists []. by rewrite app_nil_r. }
  destruct (execute_systs _ _ _ _) as [[vec|] w1] eqn:Hloop;
    apply execute_systs_frame in Hloop as (_ & _ & _ & calls & Hcalls & Hreal).
  - unfold record. destruct (evtStore w1 !! _); intros [= <- <-]; by exists calls.
  - intros [= <- <-]. by exists calls.
Qed.

Lemma out_view_Permutation a s inTaus :
  (m_sort (props a) = true → std_sort_contract sort_pt) →
  out_view a s inTaus ≡ₚ out_copy a s inTaus.
Proof.
  intros Hsort. unfold out_view. destruct (m_sort (props a)); [|done].
  by apply Hsort.
Qed.

End Loop_body.

(** ** Sorting by pt *)

Lemma not_after_sort_pt a b : not_after sort_pt a b ↔ (pt b ≤ pt a)%Z.
Proof.
  unfold not_after, sort_pt. rewrite bool_decide_eq_false. lia.
Qed.

Global Instance not_after_sort_pt_trans : Transitive (not_after sort_pt).
Proof. intros a b c. rewrite !not_after_sort_pt. lia. Qed.

Global Instance not_after_sort_pt_total : Total (not_after sort_pt).
Proof. intros a b. rewrite !not_after_sort_pt. lia. Qed.



(** The insertion sort of the scenario meets the contract of std::sort. *)
Lemma linear_insert_Permutation comp x l : linear_insert comp x l ≡ₚ x :: l.
Proof.
  induction l as [|y l IH]; cbn; [done|].
  destruct (comp x y); [done|]. rewrite IH. apply Permutation_swap.
Qed.

Lemma insertion_sort_from_Permutation comp l sorted :
  fold_left (λ sorted x, linear_insert comp x sorted) l sorted ≡ₚ sorted ++ l.
Proof.
  revert sorted. induction l as [|x l IH]; intros sorted; cbn.
  - by rewrite app_nil_r.
  - rewrite IH, linear_insert_Permutation. cbn. apply Permutation_middle.
Qed.

Lemma linear_insert_Sorted x l :
  Sorted (not_after sort_pt) l → Sorted (not_after sort_pt) (linear_insert sort_pt x l).
Proof.
  induction 1 as [|y l Hl IH Hhd]; cbn.
  - by repeat constructor.
  - destruct (sort_pt x y) eqn:Hxy.
    + constructor; [by constructor|]. constructor.
      apply not_after_sort_pt. apply bool_decide_eq_true in Hxy. lia.
    + constructor; [done|].
      assert (not_after sort_pt y x) as Hyx.
      { apply not_after_sort_pt. apply bool_decide_eq_false in Hxy. lia. }
      destruct Hhd as [|z l' Hyz]; cbn; [by constructor|].
      destruct (sort_pt x z); by constructor.
Qed.

Lemma insertion_sort_from_Sorted l sorted :
  Sorted (not_after sort_pt) sorted →
  Sorted (not_after sort_pt) (fold_left (λ sorted x, linear_insert sort_pt x sorted) l sorted).
Proof.
  revert sorted. induction l as [|x l IH]; intros sorted Hs; cbn; [done|].
  apply IH. by apply linear_insert_Sorted.
Qed.

Lemma scenario_sort_contract : std_sort_contract (H:=scenario_host) sort_pt.
Proof.
  intros l. split.
  - apply (insertion_sort_from_Permutation sort_pt l []).
  - apply insertion_sort_from_Sorted. constructor.
Qed.


(** ** More about the keys, the tool and repeated runs *)

Section More_lemmas.
Context `{tool : ITauSmearingTool} `{host : HostLibraries}.

Lemma published_lookup a s inTaus st k :
  k ∈ output_keys a s → is_Some (published a s inTaus st !! k).
Proof.
  unfold output_keys, published. rewrite !elem_of_cons, elem_of_nil.
  intros [->|[->|[->|[]]]]; rewrite !lookup_insert; repeat case_decide;
    try done; eauto.
Qed.

Lemma execute_systs_Some_keys inTaus systs : ∀ vec w vec' w',
  execute_systs inTaus vec systs w = (Some vec', w') →
  NoDup (systs ≫= output_keys (this w)) ∧
  Forall (λ k, evtStore w !! k = None) (systs ≫= output_keys (this w)) ∧
  Forall (λ k, is_Some (evtStore w' !! k)) (systs ≫= output_keys (this w)).
Proof.
  induction systs as [|s systs IH]; intros vec w vec' w'.
  - intros _. split; [apply NoDup_nil_2|]. split; constructor.
  - rewrite execute_systs_cons.
    destruct (execute_syst inTaus vec s w) as [[vec1|] w1] eqn:H1; [|done].
    intros H2.
    pose proof (execute_systs_frame _ _ _ _ _ _ H2) as (_ & Hsub2 & _).
    apply IH in H2 as (Hnd & Hfresh & Hthere).
    pose proof (execute_syst_frame _ _ _ _ _ _ H1) as (_ & Hsub1 & _).
    apply execute_syst_Some in H1 as (_ & _ & Hw1 & Hfresh1 & Hnd1 & _).
    assert (this w1 = this w) as Hthis by (by rewrite Hw1).
    rewrite Hthis in *.
    assert (∀ k, k ∈ output_keys (this w) s → is_Some (evtStore w1 !! k)) as Hin1.
    { intros k Hk. rewrite Hw1. cbn. by apply published_lookup. }
    rewrite bind_cons. split; [|split].
    + apply NoDup_app. split; [done|]. split; [|done].
      intros k Hk Hk'. rewrite Forall_forall in Hfresh.
      destruct (Hin1 k Hk) as [obj Hobj]. by rewrite (Hfresh k Hk') in Hobj.
    + apply Forall_app. split; [done|].
      eapply Forall_impl; [exact Hfresh|]. intros k Hk.
      cbn beta in *. eapply lookup_weaken_None; [exact Hk|exact Hsub1].
    + apply Forall_app. split; [|done].
      apply Forall_forall. intros k Hk. destruct (Hin1 k Hk) as [obj Hobj].
      exists obj. by eapply lookup_weaken.
Qed.

Lemma NoDup_output_keys a systs :
  NoDup (systs ≫= output_keys a) → NoDup systs.
Proof.
  induction systs as [|s systs IH]; [intros _; apply NoDup_nil_2|].
  rewrite bind_cons. intros (_ & Hdisj & Hnd)%NoDup_app.
  apply NoDup_cons. split; [|by apply IH].
  intros Hin. apply (Hdisj (outSCContainerName a s)); [by left|].
  apply list_elem_of_bind. exists s. split; [by left|done].
Qed.

Lemma execute_tool_active w w' :
  execute w = (SUCCESS, w') →
  tool_active w' = default (tool_active w) (last (m_systList (this w))).
Proof.
  intros (ei & inTaus & vec & w1 & _ & _ & Hloop & _ & ->)%execute_SUCCESS.
  apply execute_systs_Some in Hloop as (_ & _ & _ & _ & _ & Hact).
  cbn [tool_active set_evtStore]. by rewrite Hact.
Qed.

Lemma correction_calls_filter (inTaus : list TauJet) :
  inTaus ≫= correction_call =
    CallApplyCorrection <$> filter (λ t, is_Some (getTruthParticle t)) inTaus.
Proof.
  induction inTaus as [|t inTaus IH]; [done|].
  rewrite bind_cons, filter_cons, IH. unfold correction_call at 1.
  destruct (getTruthParticle t) as [tp|].
  - rewrite decide_True by eauto. done.
  - rewrite decide_False by (by intros [? ?]). done.
Qed.

Lemma props_forms a1 a2 s inTaus :
  props a1 = props a2 →
  out_copy a1 s inTaus = out_copy a2 s inTaus ∧
  out_view a1 s inTaus = out_view a2 s inTaus.
Proof.
  unfold out_view, out_copy, calibrated, isMC. by intros ->.
Qed.


Lemma execute_SUCCESS_keys w :
  (execute w).1 = SUCCESS →
  is_Some (retrieve_EventInfo (m_eventInfoContainerName (props (this w))) w) ∧
  is_Some (retrieve_TauJetContainer (m_inContainerName (props (this w))) w) ∧
  Forall (λ s, applySystematicVariation s = CP.SystematicCode.Ok) (m_systList (this w)) ∧
  NoDup (event_keys (this w)) ∧
  Forall (λ k, evtStore w !! k = None) (event_keys (this w)).
Proof.
  intros Hst.
  assert (execute w = (SUCCESS, (execute w).2)) as Hrun
    by (rewrite <- Hst; apply surjective_pairing).
  apply execute_SUCCESS in Hrun as (ei & inTaus & vec & w1 & Hei & Hin & Hloop & Hfree & _).
  pose proof (execute_systs_frame _ _ _ _ _ _ Hloop) as (_ & Hsub & _).
  pose proof (execute_systs_Some_keys _ _ _ _ _ _ Hloop) as (Hnd & Hfresh & Hthere).
  apply execute_systs_Some in Hloop as (_ & Hok & _).
  split; [by rewrite Hei|]. split; [by rewrite Hin|]. split; [done|].
  unfold event_keys. split.
  - apply NoDup_app. split; [exact Hnd|]. split; [|apply NoDup_singleton].
    intros k Hk ->%list_elem_of_singleton.
    rewrite Forall_forall in Hthere. destruct (Hthere _ Hk) as [obj Hobj].
    by rewrite Hfree in Hobj.
  - apply Forall_app. split; [exact Hfresh|]. apply Forall_singleton.
    eapply lookup_weaken_None; [exact Hfree|exact Hsub].
Qed.


(** ** initialize, in full *)

Lemma collect_SystTausNames_names systName systs : ∀ acc w,
  ∃ msgs,
    collect_SystTausNames systName systs acc w =
      (Some (acc ++ if decide (systName = "") then [] else CP.name <$> systs),
       after_tool (tool_active w) [] msgs w).
Proof.
  induction systs as [|s systs IH]; intros acc w.
  - exists []. cbn. unfold after_tool.
    rewrite !app_nil_r, world_eta. by case_decide; rewrite app_nil_r.
  - cbn. case_decide.
    + eexists [_]. unfold mbind, M_bind, ANA_MSG_INFO, modify, after_tool, add_msg.
      cbn. by rewrite !app_nil_r.
    + unfold mbind, M_bind, ANA_MSG_INFO at 1, modify.
      destruct (IH (acc ++ [CP.name s]) (add_msg MSG.INFO (tab +:+ " " +:+ CP.name s) w))
        as (msgs & ->).
      eexists (_ :: msgs). unfold after_tool, add_msg. cbn.
      rewrite !app_nil_r, <- !app_assoc. done.
Qed.

Lemma initialize_outcome w0 r w1 :
  initialize w0 = (r, w1) →
  tool_active w1 = tool_active w0 ∧
  tool_calls w1 = tool_calls w0 ∧
  props (this w1) = props (this w0) ∧
  (r = None → evtStore w1 = evtStore w0 ∧ hist w1 = hist w0) ∧
  (r = Some tt →
     evtStore w0 !! init_key (this w0) = None ∧
     evtStore w1 = <[init_key (this w0) := ObjStringVector (init_names (this w1))]> (evtStore w0) ∧
     m_numEvent (this w1) = 0%Z ∧
     m_numObject (this w1) = 0%Z ∧
     hist w1 = hist w0 ++
       (if m_writeSystToMetadata (props (this w0))
        then [(m_name (props (this w0)), CP.name <$> m_systList (this w1))] else [])).
Proof.
  unfold initialize, init_key, init_names.
  unfold mbind, M_bind, ANA_MSG_INFO, ANA_MSG_ERROR, modify, get_this, return_FAILURE,
    ANA_CHECK, record, writeSystematicsListHist, mret, M_ret.
  cbn -[collect_SystTausNames].
  repeat first
    [ match goal with
      | |- context [collect_SystTausNames ?n ?l ?acc ?w] =>
          let msgs := fresh "msgs" in
          destruct (collect_SystTausNames_names n l acc w) as (msgs & ->)
      end
    | progress (case_match; simplify_eq; cbn -[collect_SystTausNames] in * ) ];
    try done; intros [= <- <-]; cbn; try done; unfold modify, add_hist in *; simplify_eq; cbn;
    rewrite ?app_nil_r; done.
Qed.

Lemma initialize_names_set w0 :
  let p := props (this w0) in
  let a := this (initialize w0).2 in
  m_outAuxContainerName a = m_outContainerName p +:+ "Aux." ∧
  m_outSCContainerName a = m_outContainerName p +:+ "ShallowCopy" ∧
  m_outSCAuxContainerName a = (m_outContainerName p +:+ "ShallowCopy") +:+ "Aux.".
Proof.
  unfold initialize.
  unfold mbind, M_bind, ANA_MSG_INFO, ANA_MSG_ERROR, modify, get_this, return_FAILURE,
    ANA_CHECK, record, writeSystematicsListHist, mret, M_ret.
  cbn -[collect_SystTausNames].
  repeat first
    [ match goal with
      | |- context [collect_SystTausNames ?n ?l ?acc ?w] =>
          let msgs := fresh "msgs" in
          destruct (collect_SystTausNames_names n l acc w) as (msgs & ->)
      end
    | progress (case_match; simplify_eq; cbn -[collect_SystTausNames] in * ) ];
    try done; unfold modify, add_hist in *; simplify_eq; cbn; done.
Qed.

Lemma initialize_Some_iff w0 :
  let p := props (this w0) in
  (initialize w0).1 = Some tt ↔
  m_inContainerName p ≠ "" ∧
  (m_RecommendationTag p = "" ∨ setProperty "RecommendationTag" = SUCCESS) ∧
  setProperty "ApplyMVATES" = SUCCESS ∧
  setProperty "ApplyCombinedTES" = SUCCESS ∧
  retrieve = SUCCESS ∧
  evtStore w0 !! init_key (this w0) = None.
Proof.
  unfold initialize, init_key.
  unfold mbind, M_bind, ANA_MSG_INFO, ANA_MSG_ERROR, modify, get_this, return_FAILURE,
    ANA_CHECK, record, writeSystematicsListHist, mret, M_ret.
  cbn -[collect_SystTausNames].
  repeat first
    [ match goal with
      | |- context [collect_SystTausNames ?n ?l ?acc ?w] =>
          let msgs := fresh "msgs" in
          destruct (collect_SystTausNames_names n l acc w) as (msgs & ->)
      end
    | progress (case_match; simplify_eq; cbn -[collect_SystTausNames] in * ) ];
    unfold modify, add_hist in *; simplify_eq; cbn;
    (split; [try done; intros _|try done; intros (?&?&?&?&?&?)]);
    try (split_and!; try done; auto; congruence); try congruence; try (intuition congruence).
Qed.

Lemma initialize_empty_name w0 :
  m_inContainerName (props (this w0)) = "" →
  ∃ w1,
    initialize w0 = (None, w1) ∧
    msg w1 = msg w0 ++ [ (MSG.INFO, "Initializing TauCalibrator Interface... ");
                          (MSG.ERROR, "InputContainer is empty!") ] ∧
    m_systList (this w1) = m_systList (this w0) ∧
    m_numEvent (this w1) = m_numEvent (this w0) ∧
    m_numObject (this w1) = m_numObject (this w0).
Proof.
  intros Hempty. unfold initialize.
  unfold mbind, M_bind, ANA_MSG_INFO, ANA_MSG_ERROR, modify, get_this, return_FAILURE.
  cbn. rewrite decide_True by done. eexists. split; [done|]. cbn.
  by rewrite <- app_assoc.
Qed.

(** ** The order of the activations *)

Lemma filter_correction_calls (inTaus : list TauJet) :
  filter is_configure_call (inTaus ≫= correction_call) = [].
Proof.
  induction inTaus as [|t inTaus IH]; [done|].
  rewrite bind_cons, filter_app, IH, app_nil_r.
  unfold correction_call. by destruct (getTruthParticle t).
Qed.

Lemma execute_syst_calls inTaus vec s w r w' :
  execute_syst inTaus vec s w = (r, w') →
  ∃ calls, tool_calls w' = tool_calls w ++ calls ∧
           filter is_configure_call calls = [CallApplySystematicVariation s].
Proof.
  rewrite execute_syst_unfold.
  destruct (applySystematicVariation s).
  - destruct (publish _ _ _ _) as [r0 w0] eqn:Hp.
    apply publish_frame in Hp as (Hw0 & _).
    intros Heq. assert (w' = w0) as -> by (destruct r0; by simplify_eq). clear Heq.
    rewrite Hw0. cbn. eexists. split; [done|].
    unfold syst_calls. rewrite filter_cons_True by done.
    destruct (isMC (this w)); [by rewrite filter_correction_calls|done].
  - intros [= <- <-]. cbn. by exists [CallApplySystematicVariation s].
Qed.

Lemma execute_systs_calls_in_order inTaus systs : ∀ vec w r w',
  execute_systs inTaus vec systs w = (r, w') →
  ∃ calls n,
    tool_calls w' = tool_calls w ++ calls ∧
    filter is_configure_call calls = CallApplySystematicVariation <$> take n systs ∧
    (is_Some r → n = length systs).
Proof.
  induction systs as [|s systs IH]; intros vec w r w'.
  - intros [= <- <-]. exists [], 0. by rewrite app_nil_r.
  - rewrite execute_systs_cons.
    destruct (execute_syst inTaus vec s w) as [r1 w1] eqn:H1.
    apply execute_syst_calls in H1 as (calls1 & Hc1 & Hf1).
    destruct r1 as [vec1|].
    + intros H2. apply IH in H2 as (calls2 & n & Hc2 & Hf2 & Hn).
      exists (calls1 ++ calls2), (S n). split; [by rewrite Hc2, Hc1, app_assoc|].
      split; [by rewrite filter_app, Hf1, Hf2|].
      intros Hr. cbn. f_equal. by apply Hn.
    + intros [= <- <-]. exists calls1, 1. split; [done|]. split.
      * rewrite Hf1. cbn. by rewrite take_0.
      * by intros [? ?].
Qed.

Lemma execute_calls_in_order w :
  ∃ calls n,
    tool_calls (execute w).2 = tool_calls w ++ calls ∧
    filter is_configure_call calls =
      CallApplySystematicVariation <$> take n (m_systList (this w)) ∧
    ((execute w).1 = SUCCESS → n = length (m_systList (this w))).
Proof.
  rewrite execute_unfold.
  destruct (retrieve_EventInfo _ w) as [ei|].
  2:{ exists [], 0. by rewrite app_nil_r. }
  destruct (retrieve_TauJetContainer _ w) as [inTaus|].
  2:{ exists [], 0. by rewrite app_nil_r. }
  destruct (execute_systs _ _ _ _) as [[vec|] w1] eqn:Hloop;
    apply execute_systs_calls_in_order in Hloop as (calls & n & Hc & Hf & Hn).
  - exists calls, n. unfold record. destruct (evtStore w1 !! _); cbn.
    + split; [done|]. split; [done|]. done.
    + split; [done|]. split; [done|]. intros _. apply Hn. eauto.
  - exists calls, n. cbn. split; [done|]. split; [done|]. done.
Qed.

End More_lemmas.

(** ** The pt values of a sorted range *)

Definition pt_ge (x y : Z) : Prop := (y ≤ x)%Z.

Global Instance pt_ge_trans : Transitive pt_ge.
Proof. unfold pt_ge. intros x y z. lia. Qed.

Global Instance pt_ge_antisymm : AntiSymm (=) pt_ge.
Proof. unfold pt_ge. intros x y. lia. Qed.



(** * The claims *)

Section Claims.
Context `{tool : ITauSmearingTool} `{host : HostLibraries}.

(** C1.  When execute succeeds, the vector recorded under
    m_outputAlgoSystNames is the list of the names of m_systList: as many
    entries, in the same order, the baseline appearing as the empty
    string. *)
Theorem C1_manifest_follows_systList w w' :
  execute w = (SUCCESS, w') →
  ∃ manifest,
    evtStore w' !! m_outputAlgoSystNames (props (this w)) = Some (ObjStringVector manifest) ∧
    manifest = CP.name <$> m_systList (this w) ∧
    length manifest = length (m_systList (this w)) ∧
    (∀ i s, m_systList (this w) !! i = Some s → manifest !! i = Some (CP.name s)) ∧
    (∀ i, m_systList (this w) !! i = Some (CP.mkSystematicSet "") → manifest !! i = Some "").
Proof.
  intros (inTaus & _ & Hman & _)%execute_outputs.
  eexists. split; [exact Hman|]. split; [done|]. split; [apply length_fmap|].
  split.
  - intros i s Hs. by rewrite list_lookup_fmap, Hs.
  - intros i Hs. by rewrite list_lookup_fmap, Hs.
Qed.

(** C2, as amended.  After initialize, a successful execute has filed for
    every variation the owning copy under <base>ShallowCopy<variation>,
    its auxiliary store under <base>ShallowCopyAux.<variation> and the
    view under <base><variation>. *)
Theorem C2_output_keys w0 w1 w w' :
  initialize w0 = (Some tt, w1) →
  setup (this w) = setup (this w1) →
  execute w = (SUCCESS, w') →
  let base := m_outContainerName (props (this w)) in
  ∃ inTaus,
    retrieve_TauJetContainer (m_inContainerName (props (this w))) w = Some inTaus ∧
    ∀ s, s ∈ m_systList (this w) →
      evtStore w' !! ((base +:+ "ShallowCopy") +:+ CP.name s) =
        Some (ObjTauJetContainer (out_copy (this w) s inTaus)) ∧
      evtStore w' !! (((base +:+ "ShallowCopy") +:+ "Aux.") +:+ CP.name s) =
        Some (ObjShallowAuxContainer (mkShallowAux inTaus)) ∧
      evtStore w' !! (base +:+ CP.name s) =
        Some (ObjConstDataVector (out_view (this w) s inTaus)).
Proof.
  intros Hinit Hsetup Hrun base.
  destruct (initialized_names _ _ _ Hinit Hsetup) as (Hsc & Hscaux & _).
  apply execute_outputs in Hrun as (inTaus & Hin & _ & _ & Hout & _).
  exists inTaus. split; [done|]. intros s Hs. fold base in Hsc, Hscaux.
  split; [|split].
  - apply (Hout s); [done|]. left. unfold outSCContainerName. by rewrite Hsc.
  - apply (Hout s); [done|]. right; left. unfold outSCAuxContainerName. by rewrite Hscaux.
  - apply (Hout s); [done|]. right; right. done.
Qed.

(** C3.  Without the input collection in the store, execute returns
    FAILURE having only counted the event: the store, the tool and the
    message stream are as before. *)
Theorem C3_missing_input_aborts w :
  evtStore w !! m_inContainerName (props (this w)) = None →
  (execute w).1 = FAILURE ∧
  evtStore (execute w).2 = evtStore w ∧
  (execute w).2 = begin_event w.
Proof.
  intros Habsent. rewrite execute_unfold.
  unfold retrieve_TauJetContainer. rewrite Habsent.
  by destruct (retrieve_EventInfo _ w).
Qed.


(** C5.  When a variation of the list cannot be activated, execute
    returns FAILURE and nothing is taken out of the store; when the
    variations before it could all be processed, what they filed is still
    in the store, the failure is reported as an error, and nothing else
    was added. *)
Theorem C5_configuration_failure w L1 s L2 :
  m_systList (this w) = L1 ++ s :: L2 →
  applySystematicVariation s ≠ CP.SystematicCode.Ok →
  (execute w).1 = FAILURE ∧
  evtStore w ⊆ evtStore (execute w).2 ∧
  ∀ ei inTaus,
    retrieve_EventInfo (m_eventInfoContainerName (props (this w))) w = Some ei →
    retrieve_TauJetContainer (m_inContainerName (props (this w))) w = Some inTaus →
    Forall (λ s1, applySystematicVariation s1 = CP.SystematicCode.Ok) L1 →
    NoDup (L1 ≫= output_keys (this w)) →
    Forall (λ k, evtStore w !! k = None) (L1 ≫= output_keys (this w)) →
    (∀ s1 k obj, s1 ∈ L1 → is_output (this w) inTaus s1 k obj →
       evtStore (execute w).2 !! k = Some obj) ∧
    (∀ k obj, evtStore (execute w).2 !! k = Some obj →
       evtStore w !! k = Some obj ∨ ∃ s1, s1 ∈ L1 ∧ is_output (this w) inTaus s1 k obj) ∧
    last (msg (execute w).2) =
      Some (MSG.ERROR, "Failed to configure TauSmearingTool for systematic " +:+ CP.name s).
Proof.
  intros Hlist Hcfg. split; [|split].
  - rewrite execute_unfold, Hlist.
    destruct (retrieve_EventInfo _ w); [|done].
    destruct (retrieve_TauJetContainer _ w) as [inTaus|]; [|done].
    pose proof (execute_syst_fails_at inTaus L1 s L2 [] (begin_event w) Hcfg) as Hfail.
    by destruct (execute_systs _ _ _ _) as [[vec|] w1].
  - eapply execute_store_grows. apply surjective_pairing.
  - intros ei inTaus Hei Hin Hok Hnd Hfresh.
    rewrite execute_unfold, Hei, Hin, Hlist, execute_systs_app.
    destruct (execute_systs_succeeds inTaus L1 [] (begin_event w)) as [w1 Hloop]; [done..|].
    rewrite Hloop, execute_systs_cons, execute_syst_not_configured by done.
    cbn [fst snd configure_failed after_tool evtStore msg].
    pose proof (execute_systs_frame _ _ _ _ _ _ Hloop) as (_ & _ & Hnew & _).
    apply execute_systs_Some in Hloop as (_ & _ & Hout & _).
    split; [exact Hout|]. split; [exact Hnew|]. apply last_snoc.
Qed.

(** C6, as amended.  Whenever the inputs are there, every variation can
    be activated and the keys are free, execute returns SUCCESS whatever
    the corrections and the linking report.  The message stream receives,
    per variation, one warning for each object whose correction reported
    Error and one error when the links could not be set; every input
    object has its copy filed for every variation; an object without
    truth match is filed as it came in, up to the link, and raises no
    warning; an object whose correction reported Error is filed as the
    tool left it, up to the link: execute does not put it back. *)
Theorem C6_object_and_link_failures_are_not_fatal w ei inTaus :
  retrieve_EventInfo (m_eventInfoContainerName (props (this w))) w = Some ei →
  retrieve_TauJetContainer (m_inContainerName (props (this w))) w = Some inTaus →
  Forall (λ s, applySystematicVariation s = CP.SystematicCode.Ok) (m_systList (this w)) →
  NoDup (event_keys (this w)) →
  Forall (λ k, evtStore w !! k = None) (event_keys (this w)) →
  ∃ w',
    execute w = (SUCCESS, w') ∧
    msg w' = msg w ++ (m_systList (this w) ≫= λ s, syst_msgs (this w) s inTaus) ∧
    ∀ s, s ∈ m_systList (this w) →
      syst_msgs (this w) s inTaus =
        (if isMC (this w) then inTaus ≫= correction_warning s else []) ++
        (if links_established (this w) s inTaus then []
         else [(MSG.ERROR,
                "Failed to set original object links -- MET rebuilding cannot proceed.")]) ∧
      evtStore w' !! outSCContainerName (this w) s =
        Some (ObjTauJetContainer (out_copy (this w) s inTaus)) ∧
      length (out_copy (this w) s inTaus) = length inTaus ∧
      ∀ i t, inTaus !! i = Some t →
        (∃ c, out_copy (this w) s inTaus !! i = Some c ∧ comes_from (this w) s i t c) ∧
        (getTruthParticle t = None →
           correction_warning s t = [] ∧
           ∃ c, out_copy (this w) s inTaus !! i = Some c ∧ (c = t ∨ c = setLink i t)) ∧
        (is_Some (getTruthParticle t) →
         (applyCorrection s t).1 = CP.CorrectionCode.Error →
           correction_warning s t =
             [(MSG.WARNING, "TauSmearingTool returned Error CorrectionCode")] ∧
           ∃ c, out_copy (this w) s inTaus !! i = Some c ∧
                let left_by_tool := if isMC (this w) then (applyCorrection s t).2 else t in
                (c = left_by_tool ∨ c = setLink i left_by_tool)).
Proof.
  intros Hei Hin Hok Hnd Hfresh.
  pose proof (execute_succeeds w ei inTaus Hei Hin Hok Hnd Hfresh) as Hst.
  destruct (execute w) as [st w'] eqn:Hrun. cbn in Hst. subst st.
  exists w'. split; [done|].
  apply execute_outputs in Hrun as (inTaus' & Hin' & _ & _ & Hout & _ & Hmsg).
  assert (inTaus' = inTaus) as -> by congruence.
  split; [done|]. intros s Hs. split; [done|]. split.
  { apply (Hout s); [done|]. by left. }
  split; [apply out_copy_length|].
  intros i t Ht.
  destruct (out_copy_lookup (this w) s inTaus i t Ht) as (c & Hc & Hfrom).
  split; [by exists c|]. split.
  - intros Hnone. unfold correction_warning. rewrite Hnone. split; [done|].
    exists c. split; [done|]. unfold comes_from, corrected in Hfrom.
    rewrite Hnone in Hfrom. by destruct (isMC (this w)).
  - intros [tp Htp] Hcode. unfold correction_warning. rewrite Htp.
    rewrite decide_True by done. split; [done|].
    exists c. split; [done|]. unfold comes_from, corrected in Hfrom.
    by rewrite Htp in Hfrom.
Qed.

(** C7.  After a successful execute, the owning copy and the view of
    every variation have as many entries as the input collection, hence
    at most that many; when the links could be set, the entry at index i
    of the copy points to the input object at index i, the links of the
    view are pairwise different and point into the input collection, and
    without sorting the view entry at index i points to input index i. *)
Theorem C7_output_size_and_provenance w w' :
  (m_sort (props (this w)) = true → std_sort_contract sort_pt) →
  execute w = (SUCCESS, w') →
  ∃ inTaus,
    retrieve_TauJetContainer (m_inContainerName (props (this w))) w = Some inTaus ∧
    ∀ s, s ∈ m_systList (this w) →
      ∃ copy view,
        evtStore w' !! outSCContainerName (this w) s = Some (ObjTauJetContainer copy) ∧
        evtStore w' !! outContainerName (this w) s = Some (ObjConstDataVector view) ∧
        length copy ≤ length inTaus ∧
        length view ≤ length inTaus ∧
        (links_established (this w) s inTaus = true →
           (∀ i c, copy !! i = Some c → originalObjectLink c = Some i) ∧
           NoDup (originalObjectLink <$> view) ∧
           (∀ c, c ∈ view → ∃ i, originalObjectLink c = Some i ∧ i < length inTaus) ∧
           (m_sort (props (this w)) = false →
              ∀ i c, view !! i = Some c → originalObjectLink c = Some i)).
Proof.
  intros Hsort (inTaus & Hin & _ & _ & Hout & _)%execute_outputs.
  exists inTaus. split; [done|]. intros s Hs.
  exists (out_copy (this w) s inTaus), (out_view (this w) s inTaus).
  pose proof (out_view_Permutation (this w) s inTaus Hsort) as Hperm.
  split; [apply (Hout s); [done|by left]|].
  split; [apply (Hout s); [done|by right; right]|].
  split; [by rewrite out_copy_length|].
  split; [by rewrite Hperm, out_copy_length|].
  intros Hlinks. split; [|split; [|split]].
  - intros i c Hc. by eapply out_copy_linked.
  - rewrite Hperm, out_copy_links by done.
    apply (NoDup_fmap_2 _). apply NoDup_seq.
  - intros c Hc. rewrite Hperm in Hc.
    apply list_elem_of_lookup in Hc as [i Hi]. exists i. split.
    + by eapply out_copy_linked.
    + apply lookup_lt_Some in Hi. by rewrite out_copy_length in Hi.
  - intros Hnosort i c. unfold out_view. rewrite Hnosort.
    intros Hc. by eapply out_copy_linked.
Qed.

(** C8.  Processing the same event content twice, the second time with
    the algorithm object, the tool, the call trace and the message stream
    as the first run left them and the store reset to the event content,
    gives the same status and the same store. *)
Theorem C8_same_event_same_output w ev :
  let run1 := execute (set_evtStore ev w) in
  let run2 := execute (set_evtStore ev run1.2) in
  run1.1 = run2.1 ∧ evtStore run1.2 = evtStore run2.2.
Proof.
  intros run1 run2. apply execute_depends; [|done].
  change (this (set_evtStore ev run1.2)) with (this run1.2).
  unfold run1. by rewrite execute_this.
Qed.

(** C9.  initialize puts the baseline, the variation with the empty name,
    at the head of m_systList.  Every later event that succeeds has
    activated it and filed its view under the base name and its owning
    copy, with one entry per input object, under <base>ShallowCopy, and
    lists the empty name first; and an event does succeed, with all
    this, whenever its inputs are there, the variations of the list can
    be activated and its keys are free. *)
Theorem C9_baseline_always_processed w0 w1 :
  initialize w0 = (Some tt, w1) →
  let baseline := CP.mkSystematicSet "" in
  let baseline_filed (w w' : World) (inTaus : list TauJet) : Prop :=
    CallApplySystematicVariation baseline ∈ tool_calls w' ∧
    evtStore w' !! m_outContainerName (props (this w)) =
      Some (ObjConstDataVector (out_view (this w) baseline inTaus)) ∧
    evtStore w' !! (m_outContainerName (props (this w)) +:+ "ShallowCopy") =
      Some (ObjTauJetContainer (out_copy (this w) baseline inTaus)) ∧
    length (out_copy (this w) baseline inTaus) = length inTaus ∧
    ∃ rest, evtStore w' !! m_outputAlgoSystNames (props (this w)) =
              Some (ObjStringVector ("" :: rest)) in
  head (m_systList (this w1)) = Some baseline ∧
  ∀ w, setup (this w) = setup (this w1) →
    (∀ w', execute w = (SUCCESS, w') →
       ∃ inTaus,
         retrieve_TauJetContainer (m_inContainerName (props (this w))) w = Some inTaus ∧
         baseline_filed w w' inTaus) ∧
    (∀ ei inTaus,
       retrieve_EventInfo (m_eventInfoContainerName (props (this w))) w = Some ei →
       retrieve_TauJetContainer (m_inContainerName (props (this w))) w = Some inTaus →
       Forall (λ s, applySystematicVariation s = CP.SystematicCode.Ok) (m_systList (this w)) →
       NoDup (event_keys (this w)) →
       Forall (λ k, evtStore w !! k = None) (event_keys (this w)) →
       ∃ w', execute w = (SUCCESS, w') ∧ baseline_filed w w' inTaus).
Proof.
  intros Hinit baseline baseline_filed.
  pose proof (initialize_Some _ _ Hinit) as (_ & _ & _ & _ & Hlist & _).
  split; [by rewrite Hlist|].
  intros w Hsetup.
  destruct (initialized_names _ _ _ Hinit Hsetup) as (Hsc & _ & Hl).
  unfold getListofSystematics in Hl.
  assert (baseline ∈ m_systList (this w)) as Hnom by (rewrite Hl; by left).
  assert (∀ w', execute w = (SUCCESS, w') →
            ∃ inTaus,
              retrieve_TauJetContainer (m_inContainerName (props (this w))) w = Some inTaus ∧
              baseline_filed w w' inTaus) as Hfiled.
  { intros w' Hrun.
    apply execute_outputs in Hrun as (inTaus & Hin & Hman & _ & Hout & Hcalls & _).
    exists inTaus. split; [done|]. unfold baseline_filed.
    split; [|split; [|split; [|split]]].
    - rewrite Hcalls, Hl, bind_cons.
      apply elem_of_app. right. apply elem_of_app. left. unfold syst_calls. by left.
    - apply (Hout _ _ _ Hnom). right; right. split; [|done].
      unfold outContainerName, baseline. cbn [CP.name]. by rewrite append_empty.
    - apply (Hout _ _ _ Hnom). left. split; [|done].
      unfold outSCContainerName, baseline. cbn [CP.name]. by rewrite append_empty, Hsc.
    - apply out_copy_length.
    - rewrite Hman, Hl, fmap_cons. by eexists. }
  split; [exact Hfiled|].
  intros ei inTaus Hei Hin Hok Hnd Hfresh.
  pose proof (execute_succeeds w ei inTaus Hei Hin Hok Hnd Hfresh) as Hst.
  destruct (execute w) as [st w'] eqn:Hrun. cbn in Hst. subst st.
  exists w'. split; [done|].
  destruct (Hfiled w' eq_refl) as (inTaus' & Hin' & Hf).
  by assert (inTaus' = inTaus) as -> by congruence.
Qed.

(** C10.  With simulation mode off, whatever the outcome, the tool only
    receives applySystematicVariation calls, every owning copy that
    execute files has the input objects in input order, each unchanged or
    changed in its link only, and every view it files is such a copy,
    sorted when sorting is on. *)
Theorem C10_real_data_is_not_corrected w st w' :
  isMC (this w) = false →
  execute w = (st, w') →
  (∃ calls, tool_calls w' = tool_calls w ++ calls ∧ Forall is_configure_call calls) ∧
  ∀ inTaus,
    retrieve_TauJetContainer (m_inContainerName (props (this w))) w = Some inTaus →
    let unchanged (c : list TauJet) :=
      length c = length inTaus ∧
      ∀ i t, inTaus !! i = Some t →
        ∃ ci, c !! i = Some ci ∧ (ci = t ∨ ci = setLink i t) ∧ p4 ci = p4 t in
    (∀ k c, evtStore w !! k = None →
       evtStore w' !! k = Some (ObjTauJetContainer c) → unchanged c) ∧
    (∀ k v, evtStore w !! k = None →
       evtStore w' !! k = Some (ObjConstDataVector v) →
       ∃ c, unchanged c ∧
            v = if m_sort (props (this w)) then std_sort sort_pt c else c).
Proof.
  intros Hreal Hrun. split.
  { destruct (execute_calls _ _ _ Hrun) as (calls & Hcalls & Hcfg). exists calls. auto. }
  intros inTaus Hin unchanged.
  assert (∀ s, unchanged (out_copy (this w) s inTaus)) as Hcopy.
  { intros s. split; [apply out_copy_length|]. intros i t Ht.
    destruct (out_copy_lookup (this w) s inTaus i t Ht) as (c & Hc & Hfrom).
    exists c. split; [done|]. unfold comes_from in Hfrom. rewrite Hreal in Hfrom.
    split; [done|]. by destruct Hfrom as [-> | ->]. }
  split.
  - intros k c Hfree Hk.
    destruct (execute_new_objects _ _ _ _ _ Hrun Hk)
      as [Hold|[(inTaus' & s & Hin' & _ & Hout)|(_ & _ & ?)]]; [congruence| |done].
    assert (inTaus' = inTaus) as -> by congruence.
    destruct Hout as [[_ [= ->]]|[[_ ?]|[_ ?]]]; [|done..]. apply Hcopy.
  - intros k v Hfree Hk.
    destruct (execute_new_objects _ _ _ _ _ Hrun Hk)
      as [Hold|[(inTaus' & s & Hin' & _ & Hout)|(_ & _ & ?)]]; [congruence| |done].
    assert (inTaus' = inTaus) as -> by congruence.
    destruct Hout as [[_ ?]|[[_ ?]|[_ [= ->]]]]; [done..|].
    exists (out_copy (this w) s inTaus). split; [apply Hcopy|done].
Qed.

End Claims.

(** * Further properties of execute and initialize *)

Section Extras.
Context `{tool : ITauSmearingTool} `{host : HostLibraries}.

(** X1.  execute counts the event before anything can fail (line 165):
    whatever the outcome, m_numEvent has been incremented as a C++ int,
    that is by one below 2147483647 and from 2147483647 to -2147483648,
    and execute assigns no other member: m_numObject, the derived names
    and m_systList are as before. *)
Theorem X1_execute_counts_every_event w :
  m_numEvent (this (execute w).2) = int_wrap (m_numEvent (this w) + 1) ∧
  ((-2147483648 ≤ m_numEvent (this w) < 2147483647)%Z →
     m_numEvent (this (execute w).2) = (m_numEvent (this w) + 1)%Z) ∧
  (m_numEvent (this w) = 2147483647%Z →
     m_numEvent (this (execute w).2) = (-2147483648)%Z) ∧
  ((-2147483648 ≤ m_numEvent (this (execute w).2) ≤ 2147483647)%Z) ∧
  m_numObject (this (execute w).2) = m_numObject (this w) ∧
  setup (this (execute w).2) = setup (this w).
Proof.
  rewrite execute_this. cbn [m_numEvent m_numObject count_event].
  split; [done|]. split; [|split; [|split; [|done]]].
  - intros Hrange. unfold int_wrap. rewrite Z.mod_small; lia.
  - intros ->. reflexivity.
  - unfold int_wrap.
    pose proof (Z.mod_pos_bound (m_numEvent (this w) + 1 + 2147483648) 4294967296).
    lia.
Qed.

(** X2.  When the event information cannot be retrieved (lines 167-168),
    execute returns FAILURE having only counted the event, also when the
    tau collection is there: nothing is filed and the tool is not
    called. *)
Theorem X2_missing_event_info_aborts w :
  retrieve_EventInfo (m_eventInfoContainerName (props (this w))) w = None →
  execute w = (FAILURE, begin_event w).
Proof. intros Habsent. by rewrite execute_unfold, Habsent. Qed.

(** X3.  execute never removes or replaces what is in the store, whatever
    the outcome: an object found under a key before the event is found
    there afterwards, so the input collection can still be retrieved
    unchanged. *)
Theorem X3_execute_keeps_the_store w k obj :
  evtStore w !! k = Some obj →
  evtStore (execute w).2 !! k = Some obj ∧
  (∀ c, obj = ObjTauJetContainer c → retrieve_TauJetContainer k (execute w).2 = Some c).
Proof.
  intros Hk.
  assert (evtStore (execute w).2 !! k = Some obj) as Hk'.
  { eapply lookup_weaken; [exact Hk|].
    eapply execute_store_grows. apply surjective_pairing. }
  split; [done|]. intros c ->. unfold retrieve_TauJetContainer. by rewrite Hk'.
Qed.

(** X4.  execute returns SUCCESS exactly when the event information and
    the tau collection can be retrieved, every variation of m_systList
    can be activated, and the keys of the event (three per variation and
    the one of the list of names) are pairwise different and not yet in
    the store. *)
Theorem X4_execute_succeeds_exactly_when w :
  (execute w).1 = SUCCESS ↔
  is_Some (retrieve_EventInfo (m_eventInfoContainerName (props (this w))) w) ∧
  is_Some (retrieve_TauJetContainer (m_inContainerName (props (this w))) w) ∧
  Forall (λ s, applySystematicVariation s = CP.SystematicCode.Ok) (m_systList (this w)) ∧
  NoDup (event_keys (this w)) ∧
  Forall (λ k, evtStore w !! k = None) (event_keys (this w)).
Proof.
  split; [apply execute_SUCCESS_keys|].
  intros ([ei Hei] & [inTaus Hin] & Hok & Hnd & Hfresh).
  by eapply execute_succeeds.
Qed.

(** X5.  A variation that occurs twice in m_systList makes every event
    fail: the second occurrence would file under the keys of the
    first. *)
Theorem X5_repeated_variation_fails w :
  ¬ NoDup (m_systList (this w)) → (execute w).1 = FAILURE.
Proof.
  intros Hdup. destruct (execute w).1 eqn:Hst; [|done].
  apply execute_SUCCESS_keys in Hst as (_ & _ & _ & Hnd & _).
  exfalso. apply Hdup. unfold event_keys in Hnd.
  apply NoDup_app in Hnd as (Hnd & _). by eapply NoDup_output_keys.
Qed.

(** X6.  An event that succeeded cannot be processed again on the store
    it filled: a second execute returns FAILURE, because its first record
    finds the key taken, and leaves the store as the first run left
    it. *)
Theorem X6_second_run_on_filled_store_fails w w' :
  execute w = (SUCCESS, w') →
  (execute w').1 = FAILURE ∧ evtStore (execute w').2 = evtStore w'.
Proof.
  intros Hrun.
  assert (this w' = count_event (this w)) as Hthis.
  { change w' with (SUCCESS, w').2. rewrite <- Hrun. apply execute_this. }
  apply execute_outputs in Hrun as (inTaus & _ & Hman & _ & Hout & _).
  rewrite execute_unfold, Hthis.
  change (props (count_event (this w))) with (props (this w)).
  change (m_systList (count_event (this w))) with (m_systList (this w)).
  destruct (retrieve_EventInfo _ w') as [ei|]; [|done].
  destruct (retrieve_TauJetContainer _ w') as [inTaus'|]; [|done].
  destruct (m_systList (this w)) as [|s systs] eqn:Hlist.
  - cbn. unfold record. change (evtStore (begin_event w')) with (evtStore w').
    by rewrite Hman.
  - rewrite execute_systs_cons, execute_syst_unfold.
    destruct (applySystematicVariation s); [|done].
    rewrite publish_result.
    rewrite decide_False; [done|].
    cbn [evtStore after_tool begin_event set_this this]. rewrite Hthis.
    change (outSCContainerName (count_event (count_event (this w))) s)
      with (outSCContainerName (this w) s).
    rewrite (Hout s _ _ (list_elem_of_here _ _) (or_introl (conj eq_refl eq_refl))).
    done.
Qed.

(** X7.  After a successful event the tool is left with the last
    variation of the list active (it is not set back), and it has
    received, per variation and in list order, one
    applySystematicVariation followed, in simulation mode, by one
    applyCorrection for each input tau with a truth match, in input
    order, each on the tau as it is in the input collection. *)
Theorem X7_tool_use_of_a_successful_event w w' :
  execute w = (SUCCESS, w') →
  tool_active w' = default (tool_active w) (last (m_systList (this w))) ∧
  ∃ inTaus,
    retrieve_TauJetContainer (m_inContainerName (props (this w))) w = Some inTaus ∧
    tool_calls w' =
      tool_calls w ++
      (m_systList (this w) ≫= λ s,
         CallApplySystematicVariation s ::
         (if isMC (this w)
          then CallApplyCorrection <$> filter (λ t, is_Some (getTruthParticle t)) inTaus
          else [])).
Proof.
  intros Hrun. split; [by apply execute_tool_active|].
  apply execute_outputs in Hrun as (inTaus & Hin & _ & _ & _ & Hcalls & _).
  exists inTaus. split; [done|]. rewrite Hcalls. f_equal.
  unfold syst_calls. by rewrite correction_calls_filter.
Qed.

(** X8.  The variations do not influence one another: in two successful
    events on the same input collection and with the same properties and
    derived names, a variation that is in both lists gets the same owning
    copy and the same view, whatever else the two lists hold. *)
Theorem X8_variations_are_independent w1 w1' w2 w2' inTaus s :
  props (this w1) = props (this w2) →
  m_outSCContainerName (this w1) = m_outSCContainerName (this w2) →
  retrieve_TauJetContainer (m_inContainerName (props (this w1))) w1 = Some inTaus →
  retrieve_TauJetContainer (m_inContainerName (props (this w2))) w2 = Some inTaus →
  s ∈ m_systList (this w1) →
  s ∈ m_systList (this w2) →
  execute w1 = (SUCCESS, w1') →
  execute w2 = (SUCCESS, w2') →
  evtStore w1' !! outSCContainerName (this w1) s =
    evtStore w2' !! outSCContainerName (this w1) s ∧
  evtStore w1' !! outContainerName (this w1) s =
    evtStore w2' !! outContainerName (this w1) s ∧
  is_Some (evtStore w1' !! outContainerName (this w1) s).
Proof.
  intros Hp Hsc Hin1 Hin2 Hs1 Hs2
    (in1 & Hin1' & _ & _ & Hout1 & _)%execute_outputs
    (in2 & Hin2' & _ & _ & Hout2 & _)%execute_outputs.
  assert (in1 = inTaus) as -> by congruence.
  assert (in2 = inTaus) as -> by congruence.
  destruct (props_forms _ _ s inTaus Hp) as (Hcopy & Hview).
  assert (outSCContainerName (this w1) s = outSCContainerName (this w2) s) as Hk1
    by (unfold outSCContainerName; by rewrite Hsc).
  assert (outContainerName (this w1) s = outContainerName (this w2) s) as Hk2
    by (unfold outContainerName; by rewrite Hp).
  rewrite (Hout1 s (outSCContainerName (this w1) s) _ Hs1 (or_introl (conj eq_refl eq_refl))).
  rewrite (Hout1 s (outContainerName (this w1) s) _ Hs1
             (or_intror (or_intror (conj eq_refl eq_refl)))).
  rewrite Hk1, Hk2.
  rewrite (Hout2 s (outSCContainerName (this w2) s) _ Hs2 (or_introl (conj eq_refl eq_refl))).
  rewrite (Hout2 s (outContainerName (this w2) s) _ Hs2
             (or_intror (or_intror (conj eq_refl eq_refl)))).
  rewrite Hcopy, Hview. eauto.
Qed.


(** X10.  With an empty m_systList, as the constructor leaves it, an
    event whose inputs are there only files the empty list of names, when
    its key is free, and fails otherwise; the tool is not called and no
    collection is filed. *)
Theorem X10_no_variations w ei inTaus :
  m_systList (this w) = [] →
  retrieve_EventInfo (m_eventInfoContainerName (props (this w))) w = Some ei →
  retrieve_TauJetContainer (m_inContainerName (props (this w))) w = Some inTaus →
  (evtStore w !! m_outputAlgoSystNames (props (this w)) = None →
     execute w =
       (SUCCESS,
        set_evtStore (<[m_outputAlgoSystNames (props (this w)) := ObjStringVector []]>
                        (evtStore w)) (begin_event w))) ∧
  (is_Some (evtStore w !! m_outputAlgoSystNames (props (this w))) →
     execute w = (FAILURE, begin_event w)).
Proof.
  intros Hlist Hei Hin. rewrite execute_unfold, Hei, Hin, Hlist. cbn.
  unfold record. change (evtStore (begin_event w)) with (evtStore w).
  split.
  - by intros ->.
  - by intros [obj ->].
Qed.

(** X11.  A variation is not filed as a whole: when the key of the
    auxiliary store of the first variation is taken while the key of its
    owning copy is free, execute returns FAILURE after the owning copy
    was recorded (lines 252-253), and the store ends with that copy as
    its only addition. *)
Theorem X11_partly_filed_variation w ei inTaus s systs :
  m_systList (this w) = s :: systs →
  retrieve_EventInfo (m_eventInfoContainerName (props (this w))) w = Some ei →
  retrieve_TauJetContainer (m_inContainerName (props (this w))) w = Some inTaus →
  applySystematicVariation s = CP.SystematicCode.Ok →
  evtStore w !! outSCContainerName (this w) s = None →
  is_Some (evtStore w !! outSCAuxContainerName (this w) s) →
  (execute w).1 = FAILURE ∧
  evtStore (execute w).2 =
    <[outSCContainerName (this w) s := ObjTauJetContainer (out_copy (this w) s inTaus)]>
      (evtStore w).
Proof.
  intros Hlist Hei Hin Hcfg Hfree [obj Htaken].
  rewrite execute_unfold, Hei, Hin, Hlist, execute_systs_cons, execute_syst_unfold, Hcfg.
  rewrite publish_result. cbv zeta.
  cbn [evtStore after_tool begin_event set_this this].
  change (outSCContainerName (count_event (this w)) s) with (outSCContainerName (this w) s).
  change (outSCAuxContainerName (count_event (this w)) s)
    with (outSCAuxContainerName (this w) s).
  rewrite decide_True by done.
  rewrite decide_False; [done|].
  rewrite lookup_insert_ne; [by rewrite Htaken|].
  intros Heq. rewrite Heq in Hfree. by rewrite Hfree in Htaken.
Qed.

(** X12.  initialize refuses an empty input container name (lines
    100-103): it returns FAILURE with the error logged, after the derived
    names were set (lines 95-98) and before the counters are reset, the
    tool is set up or anything is filed. *)
Theorem X12_initialize_refuses_empty_input_name w0 :
  m_inContainerName (props (this w0)) = "" →
  ∃ w1,
    initialize w0 = (None, w1) ∧
    msg w1 = msg w0 ++ [ (MSG.INFO, "Initializing TauCalibrator Interface... ");
                          (MSG.ERROR, "InputContainer is empty!") ] ∧
    m_outSCContainerName (this w1) = m_outContainerName (props (this w0)) +:+ "ShallowCopy" ∧
    m_systList (this w1) = m_systList (this w0) ∧
    m_numEvent (this w1) = m_numEvent (this w0) ∧
    m_numObject (this w1) = m_numObject (this w0) ∧
    evtStore w1 = evtStore w0 ∧
    hist w1 = hist w0.
Proof.
  intros Hempty.
  destruct (initialize_empty_name w0 Hempty) as (w1 & Hinit & Hmsg & Hlist & Hev & Hobj).
  exists w1. split; [done|]. split; [done|].
  destruct (initialize_names_set w0) as (_ & Hsc & _). rewrite Hinit in Hsc.
  split; [exact Hsc|]. split; [done|]. split; [done|]. split; [done|].
  apply initialize_outcome in Hinit as (_ & _ & _ & Hfail & _). by apply Hfail.
Qed.

(** X13.  initialize returns SUCCESS exactly when the input container
    name is not empty, the tool accepts its properties (RecommendationTag
    only being set when it is not empty) and can be retrieved, and the
    key "taus_Syst" followed by the algorithm name is free in the
    store. *)
Theorem X13_initialize_succeeds_exactly_when w0 :
  let p := props (this w0) in
  (initialize w0).1 = Some tt ↔
  m_inContainerName p ≠ "" ∧
  (m_RecommendationTag p = "" ∨ setProperty "RecommendationTag" = SUCCESS) ∧
  setProperty "ApplyMVATES" = SUCCESS ∧
  setProperty "ApplyCombinedTES" = SUCCESS ∧
  retrieve = SUCCESS ∧
  evtStore w0 !! ("taus_Syst" +:+ m_name p) = None.
Proof. apply initialize_Some_iff. Qed.

(** X14.  A successful initialize adds exactly one object to the store,
    under "taus_Syst" followed by the algorithm name: the names of
    m_systList, or the empty list when m_systName is empty.  It resets
    both counters, writes the list to the metadata only when
    m_writeSystToMetadata is set, and does not call the tool's
    applySystematicVariation or applyCorrection. *)
Theorem X14_what_initialize_leaves w0 w1 :
  initialize w0 = (Some tt, w1) →
  let p := props (this w0) in
  let key := "taus_Syst" +:+ m_name p in
  evtStore w0 !! key = None ∧
  evtStore w1 =
    <[key := ObjStringVector (if decide (m_systName p = "") then []
                               else CP.name <$> m_systList (this w1))]> (evtStore w0) ∧
  m_numEvent (this w1) = 0%Z ∧
  m_numObject (this w1) = 0%Z ∧
  hist w1 = hist w0 ++
    (if m_writeSystToMetadata p then [(m_name p, CP.name <$> m_systList (this w1))] else []) ∧
  tool_calls w1 = tool_calls w0 ∧
  tool_active w1 = tool_active w0.
Proof.
  intros Hinit p key.
  apply initialize_outcome in Hinit as (Hact & Hcalls & Hp & _ & Hok).
  destruct (Hok eq_refl) as (Hfree & Hstore & Hev & Hobj & Hhist).
  unfold init_names in Hstore. rewrite Hp in Hstore.
  split; [exact Hfree|]. split; [exact Hstore|]. done.
Qed.

(** X15.  An initialize that fails, for whichever reason, leaves the
    store and the metadata as they were and has not called the tool's
    applySystematicVariation or applyCorrection. *)
Theorem X15_failed_initialize_files_nothing w0 :
  (initialize w0).1 = None →
  evtStore (initialize w0).2 = evtStore w0 ∧
  hist (initialize w0).2 = hist w0 ∧
  tool_calls (initialize w0).2 = tool_calls w0 ∧
  tool_active (initialize w0).2 = tool_active w0.
Proof.
  intros Hfail.
  destruct (initialize_outcome w0 (initialize w0).1 (initialize w0).2)
    as (Hact & Hcalls & _ & Hnone & _); [apply surjective_pairing|].
  destruct (Hnone Hfail) as (Hstore & Hhist). done.
Qed.

(** X16.  initialize cannot be run twice on the same store: after a
    successful initialize, a second one returns FAILURE, the key of the
    list of names being taken, and files nothing. *)
Theorem X16_second_initialize_fails w0 w1 :
  initialize w0 = (Some tt, w1) →
  (initialize w1).1 = None ∧ evtStore (initialize w1).2 = evtStore w1.
Proof.
  intros Hinit.
  apply initialize_outcome in Hinit as (_ & _ & Hp & _ & Hok).
  destruct (Hok eq_refl) as (_ & Hstore & _).
  assert ((initialize w1).1 = None) as Hfail.
  { destruct (initialize w1).1 as [[]|] eqn:Hst; [|done].
    apply initialize_Some_iff in Hst as (_ & _ & _ & _ & _ & Hfree).
    unfold init_key in Hfree, Hstore. rewrite Hp in Hfree.
    by rewrite Hstore, lookup_insert_eq in Hfree. }
  split; [done|].
  destruct (initialize_outcome w1 (initialize w1).1 (initialize w1).2)
    as (_ & _ & _ & Hnone & _); [apply surjective_pairing|].
  by apply Hnone.
Qed.

(** X17.  The list of names initialize files and the list every
    successful event files agree when m_systName is not empty; with an
    empty m_systName initialize files the empty list while the events
    list every variation of m_systList. *)
Theorem X17_names_at_initialize_and_per_event w0 w1 w w' :
  initialize w0 = (Some tt, w1) →
  setup (this w) = setup (this w1) →
  execute w = (SUCCESS, w') →
  ∃ at_initialize per_event,
    evtStore w1 !! ("taus_Syst" +:+ m_name (props (this w))) =
      Some (ObjStringVector at_initialize) ∧
    evtStore w' !! m_outputAlgoSystNames (props (this w)) =
      Some (ObjStringVector per_event) ∧
    per_event = CP.name <$> m_systList (this w) ∧
    (m_systName (props (this w)) ≠ "" → at_initialize = per_event) ∧
    (m_systName (props (this w)) = "" → at_initialize = []).
Proof.
  intros Hinit Hsetup Hrun.
  apply initialize_outcome in Hinit as (_ & _ & Hp & _ & Hok).
  destruct (Hok eq_refl) as (_ & Hstore & _).
  apply execute_outputs in Hrun as (inTaus & _ & Hman & _).
  assert (props (this w) = props (this w1)) as Hpw
    by (unfold setup in Hsetup; congruence).
  assert (m_systList (this w) = m_systList (this w1)) as Hl
    by (unfold setup in Hsetup; congruence).
  exists (init_names (this w1)), (CP.name <$> m_systList (this w)).
  split; [|split; [done|split; [done|split]]].
  - rewrite Hstore. unfold init_key. rewrite Hpw, <- Hp. apply lookup_insert_eq.
  - intros Hne. unfold init_names. rewrite <- Hpw, decide_False by done. by rewrite Hl.
  - intros Heq. unfold init_names. by rewrite <- Hpw, decide_True.
Qed.

(** X18.  The variations are activated in the order of m_systList and
    the loop stops at the first fatal condition: whatever the outcome,
    the applySystematicVariation calls of the event are those for the
    first n variations of the list, in order, n being the length of the
    list when the event succeeds. *)
Theorem X18_variations_in_list_order w :
  ∃ calls n,
    tool_calls (execute w).2 = tool_calls w ++ calls ∧
    filter is_configure_call calls =
      CallApplySystematicVariation <$> take n (m_systList (this w)) ∧
    ((execute w).1 = SUCCESS → n = length (m_systList (this w))).
Proof. apply execute_calls_in_order. Qed.

End Extras.

(** * The scenario, run

    From here on the tool and the host libraries are the ones of the
    scenario unless another host is named. *)

#[local] Existing Instance scenario_tool.
#[local] Existing Instance scenario_host.

(** The scenario (sorting off, simulation on): the list recorded under
    [Out_Syst] is [""; "TAUS_TES_TOTAL_1up"]. *)
Lemma C1_witness :
  let w := scenario_world false true in
  let w' := (execute w).2 in
  execute w = (SUCCESS, w') ∧
  ∃ manifest,
    evtStore w' !! "Out_Syst" = Some (ObjStringVector manifest) ∧
    manifest = [""; "TAUS_TES_TOTAL_1up"] ∧
    length manifest = 2 ∧
    (∀ i s, [nominal; TES_1up] !! i = Some s → manifest !! i = Some (CP.name s)) ∧
    (∀ i, [nominal; TES_1up] !! i = Some (CP.mkSystematicSet "") → manifest !! i = Some "").
Proof.
  assert (execute (scenario_world false true) =
          (SUCCESS, (execute (scenario_world false true)).2)) as Hrun
    by (vm_compute; reflexivity).
  split; [exact Hrun|].
  exact (C1_manifest_follows_systList _ _ Hrun).
Defined.

(** In the scenario with base name [Out], what execute files under [Out]
    and [OutTAUS_TES_TOTAL_1up] are the views; no owning collection is
    filed under these names: the owning copies are under [OutShallowCopy]
    and [OutShallowCopyTAUS_TES_TOTAL_1up]. *)
Lemma C2_counterexample :
  let w := scenario_world false true in
  let w' := (execute w).2 in
  execute w = (SUCCESS, w') ∧
  m_systList (this w) = [nominal; TES_1up] ∧
  m_outContainerName (props (this w)) = "Out" ∧
  (¬ ∃ c, evtStore w' !! "Out" = Some (ObjTauJetContainer c)) ∧
  (¬ ∃ c, evtStore w' !! "OutTAUS_TES_TOTAL_1up" = Some (ObjTauJetContainer c)) ∧
  (∃ v, evtStore w' !! "Out" = Some (ObjConstDataVector v)) ∧
  (∃ v, evtStore w' !! "OutTAUS_TES_TOTAL_1up" = Some (ObjConstDataVector v)) ∧
  (∃ c, evtStore w' !! "OutShallowCopy" = Some (ObjTauJetContainer c)) ∧
  (∃ c, evtStore w' !! "OutShallowCopyTAUS_TES_TOTAL_1up" = Some (ObjTauJetContainer c)).
Proof.
  split; [vm_compute; reflexivity|]. split; [reflexivity|]. split; [reflexivity|].
  split; [intros [c Hc]; vm_compute in Hc; discriminate Hc|].
  split; [intros [c Hc]; vm_compute in Hc; discriminate Hc|].
  repeat split; eexists; vm_compute; reflexivity.
Defined.

(** The scenario from the constructor on: initialize, then one event. *)
Lemma C2_witness :
  let w0 := world_of (constructed (scenario_props false true)) (∅ : gmap string StoreObject) in
  let w1 := (initialize w0).2 in
  let w := set_evtStore (event_store scenario_taus) w1 in
  let w' := (execute w).2 in
  initialize w0 = (Some tt, w1) ∧
  setup (this w) = setup (this w1) ∧
  execute w = (SUCCESS, w') ∧
  ∃ inTaus,
    retrieve_TauJetContainer "TauJets" w = Some inTaus ∧
    ∀ s, s ∈ [nominal; TES_1up] →
      evtStore w' !! (("Out" +:+ "ShallowCopy") +:+ CP.name s) =
        Some (ObjTauJetContainer (out_copy (this w) s inTaus)) ∧
      evtStore w' !! ((("Out" +:+ "ShallowCopy") +:+ "Aux.") +:+ CP.name s) =
        Some (ObjShallowAuxContainer (mkShallowAux inTaus)) ∧
      evtStore w' !! ("Out" +:+ CP.name s) =
        Some (ObjConstDataVector (out_view (this w) s inTaus)).
Proof.
  intros w0 w1 w w'.
  assert (initialize w0 = (Some tt, w1)) as Hinit
    by (vm_compute; reflexivity).
  assert (setup (this w) = setup (this w1)) as Hsetup by reflexivity.
  assert (execute w = (SUCCESS, w')) as Hrun
    by (vm_compute; reflexivity).
  split; [exact Hinit|]. split; [exact Hsetup|]. split; [exact Hrun|].
  exact (C2_output_keys w0 w1 w w' Hinit Hsetup Hrun).
Defined.

(** An event whose store holds the event information but no [TauJets]. *)
Lemma C3_witness :
  let w := world_of (configured (scenario_props false true) [nominal; TES_1up])
             (<["EventInfo" := ObjEventInfo (mkEventInfo 1)]> ∅) in
  evtStore w !! "TauJets" = None ∧
  (execute w).1 = FAILURE ∧
  evtStore (execute w).2 = evtStore w ∧
  (execute w).2 = begin_event w.
Proof.
  split; [vm_compute; reflexivity|].
  apply C3_missing_input_aborts.
  vm_compute. reflexivity.
Defined.


(** The scenario with a variation the tool does not know between the
    two it knows: the event fails, the baseline outputs stay. *)
Lemma C5_witness :
  let w := world_of (configured (scenario_props false true) [nominal; unknown_syst; TES_1up])
             (event_store scenario_taus) in
  let r := execute w in
  m_systList (this w) = [nominal] ++ unknown_syst :: [TES_1up] ∧
  applySystematicVariation unknown_syst
    ≠ CP.SystematicCode.Ok ∧
  r.1 = FAILURE ∧
  evtStore w ⊆ evtStore r.2 ∧
  evtStore r.2 !! "OutShallowCopy" =
    Some (ObjTauJetContainer
            (out_copy (this w) nominal scenario_taus)) ∧
  evtStore r.2 !! "Out" =
    Some (ObjConstDataVector
            (out_view (this w) nominal scenario_taus)).
Proof.
  intros w r.
  assert (m_systList (this w) = [nominal] ++ unknown_syst :: [TES_1up]) as Hlist
    by reflexivity.
  assert (applySystematicVariation unknown_syst
            ≠ CP.SystematicCode.Ok) as Hcfg by (vm_compute; discriminate).
  destruct (C5_configuration_failure
              w [nominal] unknown_syst [TES_1up] Hlist Hcfg) as (Hfail & Hgrows & Hkept).
  destruct (Hkept (mkEventInfo 1) scenario_taus) as (Hout & _ & _).
  - vm_compute; reflexivity.
  - vm_compute; reflexivity.
  - repeat constructor.
  - vm_compute. repeat constructor; rewrite ?elem_of_cons, ?elem_of_nil; intuition discriminate.
  - vm_compute. repeat constructor.
  - split; [exact Hlist|]. split; [exact Hcfg|]. split; [exact Hfail|].
    split; [exact Hgrows|]. split.
    + apply (Hout nominal); [by left|]. left. split; reflexivity.
    + apply (Hout nominal); [by left|]. right; right. split; reflexivity.
Defined.

(** A tool that writes into the object before it reports Error: the
    event succeeds with one warning per variation, and the copy of the
    first tau is filed with the pt the tool wrote, not the pt it came
    with. *)
Lemma C6_counterexample :
  let w := world_of (configured (scenario_props false true) [nominal; TES_1up])
             (event_store faulty_taus) in
  ∃ w' t copy c,
    execute (tool:=meddling_tool) w = (SUCCESS, w') ∧
    retrieve_TauJetContainer "TauJets" w = Some faulty_taus ∧
    faulty_taus !! 0 = Some t ∧
    is_Some (getTruthParticle t) ∧
    (applyCorrection (ITauSmearingTool:=meddling_tool) nominal t).1 = CP.CorrectionCode.Error ∧
    msg w' =
      [ (MSG.WARNING, "TauSmearingTool returned Error CorrectionCode");
        (MSG.WARNING, "TauSmearingTool returned Error CorrectionCode") ] ∧
    evtStore w' !! "OutShallowCopy" = Some (ObjTauJetContainer copy) ∧
    copy !! 0 = Some c ∧
    pt t = (-1)%Z ∧
    pt c = 37777%Z ∧
    c ≠ t ∧ c ≠ setLink 0 t.
Proof.
  intros w.
  exists (execute (tool:=meddling_tool) w).2,
         (mkTauJet (-1) 100 20 1777 (Some 0%nat) None),
         [ mkTauJet 37777 100 20 1777 (Some 0%nat) (Some 0%nat);
           mkTauJet 50000 (-50) 10 1777 None (Some 1%nat);
           mkTauJet 41000 120 (-30) 1777 (Some 1%nat) (Some 2%nat) ],
         (mkTauJet 37777 100 20 1777 (Some 0%nat) (Some 0%nat)).
  split; [vm_compute; reflexivity|]. split; [vm_compute; reflexivity|].
  split; [reflexivity|]. split; [by eexists|]. split; [reflexivity|].
  split; [vm_compute; reflexivity|]. split; [vm_compute; reflexivity|].
  split; [reflexivity|]. split; [reflexivity|]. split; [reflexivity|].
  split; intros Heq; discriminate Heq.
Defined.

(** The scenario with a tau the tool rejects and a host where no link
    can be set: the event succeeds, with one warning and one error per
    variation. *)
Lemma C6_witness :
  let w := world_of (configured (scenario_props false true) [nominal; TES_1up])
             (event_store faulty_taus) in
  ∃ w',
    execute (host:=unlinkable_host) w = (SUCCESS, w') ∧
    msg w' =
      [ (MSG.WARNING, "TauSmearingTool returned Error CorrectionCode");
        (MSG.ERROR, "Failed to set original object links -- MET rebuilding cannot proceed.");
        (MSG.WARNING, "TauSmearingTool returned Error CorrectionCode");
        (MSG.ERROR, "Failed to set original object links -- MET rebuilding cannot proceed.") ] ∧
    evtStore w' !! "OutShallowCopy" =
      Some (ObjTauJetContainer
              [ mkTauJet (-1) 100 20 1777 (Some 0%nat) None;
                mkTauJet 50000 (-50) 10 1777 None None;
                mkTauJet 41000 120 (-30) 1777 (Some 1%nat) None ]).
Proof.
  intros w.
  destruct (C6_object_and_link_failures_are_not_fatal (host:=unlinkable_host)
              w (mkEventInfo 1) faulty_taus) as (w' & Hrun & Hmsg & Hper).
  - vm_compute; reflexivity.
  - vm_compute; reflexivity.
  - repeat constructor.
  - apply (bool_decide_unpack _). vm_compute. exact I.
  - apply (bool_decide_unpack _). vm_compute. exact I.
  - exists w'. split; [exact Hrun|]. split; [exact Hmsg|].
    destruct (Hper nominal) as (_ & Hcopy & _); [by left|]. exact Hcopy.
Defined.

(** The scenario with sorting on, for the second variation. *)
Lemma C7_witness :
  let w := scenario_world true true in
  let w' := (execute w).2 in
  std_sort_contract sort_pt ∧
  execute w = (SUCCESS, w') ∧
  ∃ copy view,
    evtStore w' !! "OutShallowCopyTAUS_TES_TOTAL_1up" = Some (ObjTauJetContainer copy) ∧
    evtStore w' !! "OutTAUS_TES_TOTAL_1up" = Some (ObjConstDataVector view) ∧
    length copy ≤ 3 ∧
    length view ≤ 3 ∧
    (∀ i c, copy !! i = Some c → originalObjectLink c = Some i) ∧
    NoDup (originalObjectLink <$> view) ∧
    (∀ c, c ∈ view → ∃ i, originalObjectLink c = Some i ∧ i < 3).
Proof.
  intros w w'.
  assert (execute w = (SUCCESS, w')) as Hrun by (vm_compute; reflexivity).
  split; [exact scenario_sort_contract|]. split; [exact Hrun|].
  destruct (C7_output_size_and_provenance w w' (λ _, scenario_sort_contract) Hrun)
    as (inTaus & Hin & Hper).
  assert (inTaus = scenario_taus) as ->.
  { vm_compute in Hin. by injection Hin as <-. }
  destruct (Hper TES_1up) as (copy & view & Hc & Hv & Hlc & Hlv & Hlinks).
  { right. by left. }
  destruct Hlinks as (H1 & H2 & H3 & _); [vm_compute; reflexivity|].
  exists copy, view. split; [exact Hc|]. split; [exact Hv|].
  split; [exact Hlc|]. split; [exact Hlv|]. split; [exact H1|].
  split; [exact H2|exact H3].
Defined.

(** The scenario from the constructor on: initialize, then the event of
    the three taus.  The event succeeds and the baseline outputs are in
    the store. *)
Lemma C9_witness :
  let w0 := world_of (constructed (scenario_props false true)) (∅ : gmap string StoreObject) in
  let w1 := (initialize w0).2 in
  let w := scenario_world false true in
  initialize w0 = (Some tt, w1) ∧
  head (m_systList (this w1)) = Some nominal ∧
  setup (this w) = setup (this w1) ∧
  ∃ w',
    execute w = (SUCCESS, w') ∧
    CallApplySystematicVariation nominal ∈ tool_calls w' ∧
    evtStore w' !! "Out" = Some (ObjConstDataVector (out_view (this w) nominal scenario_taus)) ∧
    evtStore w' !! "OutShallowCopy" =
      Some (ObjTauJetContainer (out_copy (this w) nominal scenario_taus)) ∧
    out_copy (this w) nominal scenario_taus =
      [ mkTauJet 31000 100 20 1777 (Some 0%nat) (Some 0%nat);
        mkTauJet 50000 (-50) 10 1777 None (Some 1%nat);
        mkTauJet 51000 120 (-30) 1777 (Some 1%nat) (Some 2%nat) ] ∧
    length (out_copy (this w) nominal scenario_taus) = 3 ∧
    ∃ rest, evtStore w' !! "Out_Syst" = Some (ObjStringVector ("" :: rest)).
Proof.
  intros w0 w1 w.
  assert (initialize w0 = (Some tt, w1)) as Hinit by (vm_compute; reflexivity).
  assert (setup (this w) = setup (this w1)) as Hsetup by (vm_compute; reflexivity).
  split; [exact Hinit|].
  destruct (C9_baseline_always_processed w0 w1 Hinit) as [Hhead Hevents].
  split; [exact Hhead|]. split; [exact Hsetup|].
  destruct (Hevents w Hsetup) as [_ Hsucceeds].
  destruct (Hsucceeds (mkEventInfo 1) scenario_taus) as (w' & Hrun & Hcall & Hview & Hcopy & Hlen & Hman).
  - vm_compute; reflexivity.
  - vm_compute; reflexivity.
  - repeat constructor.
  - apply (bool_decide_unpack _). vm_compute. exact I.
  - apply (bool_decide_unpack _). vm_compute. exact I.
  - exists w'. split; [exact Hrun|]. split; [exact Hcall|]. split; [exact Hview|].
    split; [exact Hcopy|]. split; [vm_compute; reflexivity|]. split; [exact Hlen|].
    exact Hman.
Defined.

(** The scenario on real data. *)
Lemma C10_witness :
  let w := scenario_world false false in
  let w' := (execute w).2 in
  isMC (this w) = false ∧
  (∃ calls, tool_calls w' = tool_calls w ++ calls ∧ Forall is_configure_call calls) ∧
  ∀ k c, evtStore w !! k = None →
    evtStore w' !! k = Some (ObjTauJetContainer c) →
    length c = 3 ∧
    ∀ i t, scenario_taus !! i = Some t →
      ∃ ci, c !! i = Some ci ∧ (ci = t ∨ ci = setLink i t) ∧ p4 ci = p4 t.
Proof.
  intros w w'.
  assert (isMC (this w) = false) as Hreal by reflexivity.
  destruct (C10_real_data_is_not_corrected w (execute w).1 w' Hreal) as (Hcalls & Hcopies).
  { apply surjective_pairing. }
  split; [exact Hreal|]. split; [exact Hcalls|].
  destruct (Hcopies scenario_taus) as (Hown & _); [vm_compute; reflexivity|].
  exact Hown.
Defined.

(** * The further properties, run on the scenario *)

(** No event information in the store. *)
Lemma X2_witness :
  let w := world_of (configured (scenario_props false true) [nominal; TES_1up])
             store_without_event_info in
  retrieve_EventInfo "EventInfo" w = None ∧
  execute w = (FAILURE, begin_event w).
Proof.
  intros w. split; [vm_compute; reflexivity|].
  apply X2_missing_event_info_aborts. vm_compute. reflexivity.
Defined.

(** The input collection of the scenario is still there after the event. *)
Lemma X3_witness :
  let w := scenario_world false true in
  evtStore w !! "TauJets" = Some (ObjTauJetContainer scenario_taus) ∧
  evtStore (execute w).2 !! "TauJets" = Some (ObjTauJetContainer scenario_taus) ∧
  (∀ c, ObjTauJetContainer scenario_taus = ObjTauJetContainer c →
     retrieve_TauJetContainer "TauJets" (execute w).2 = Some c).
Proof.
  intros w.
  assert (evtStore w !! "TauJets" = Some (ObjTauJetContainer scenario_taus)) as Hk
    by (vm_compute; reflexivity).
  split; [exact Hk|]. exact (X3_execute_keeps_the_store w "TauJets" _ Hk).
Defined.

(** The baseline listed twice. *)
Lemma X5_witness :
  let w := world_of (configured (scenario_props false true) [nominal; TES_1up; nominal])
             (event_store scenario_taus) in
  ¬ NoDup (m_systList (this w)) ∧ (execute w).1 = FAILURE.
Proof.
  intros w.
  assert (¬ NoDup (m_systList (this w))) as Hdup.
  { intros Hnd. apply NoDup_cons in Hnd as [Hn _]. apply Hn. right. by left. }
  split; [exact Hdup|]. exact (X5_repeated_variation_fails w Hdup).
Defined.

(** The scenario, run a second time without clearing the store. *)
Lemma X6_witness :
  let w := scenario_world false true in
  let w' := (execute w).2 in
  execute w = (SUCCESS, w') ∧
  (execute w').1 = FAILURE ∧ evtStore (execute w').2 = evtStore w'.
Proof.
  intros w w'.
  assert (execute w = (SUCCESS, w')) as Hrun by (vm_compute; reflexivity).
  split; [exact Hrun|]. exact (X6_second_run_on_filled_store_fails w w' Hrun).
Defined.

(** The scenario: the tool ends with TAUS_TES_TOTAL_1up active, having
    corrected the first and the third tau, which have a truth match, once
    per variation. *)
Lemma X7_witness :
  let w := scenario_world false true in
  let w' := (execute w).2 in
  execute w = (SUCCESS, w') ∧
  tool_active w' = TES_1up ∧
  ∃ inTaus,
    retrieve_TauJetContainer "TauJets" w = Some inTaus ∧
    tool_calls w' =
      [] ++
      ([nominal; TES_1up] ≫= λ s,
         CallApplySystematicVariation s ::
         (if true
          then CallApplyCorrection <$> filter (λ t, is_Some (getTruthParticle t)) inTaus
          else [])).
Proof.
  intros w w'.
  assert (execute w = (SUCCESS, w')) as Hrun by (vm_compute; reflexivity).
  split; [exact Hrun|]. exact (X7_tool_use_of_a_successful_event w w' Hrun).
Defined.

(** TAUS_TES_TOTAL_1up processed after the baseline and on its own. *)
Lemma X8_witness :
  let w1 := scenario_world false true in
  let w2 := world_of (configured (scenario_props false true) [TES_1up])
              (event_store scenario_taus) in
  let w1' := (execute w1).2 in
  let w2' := (execute w2).2 in
  execute w1 = (SUCCESS, w1') ∧
  execute w2 = (SUCCESS, w2') ∧
  evtStore w1' !! "OutShallowCopyTAUS_TES_TOTAL_1up" =
    evtStore w2' !! "OutShallowCopyTAUS_TES_TOTAL_1up" ∧
  evtStore w1' !! "OutTAUS_TES_TOTAL_1up" = evtStore w2' !! "OutTAUS_TES_TOTAL_1up" ∧
  is_Some (evtStore w1' !! "OutTAUS_TES_TOTAL_1up").
Proof.
  intros w1 w2 w1' w2'.
  assert (execute w1 = (SUCCESS, w1')) as Hrun1 by (vm_compute; reflexivity).
  assert (execute w2 = (SUCCESS, w2')) as Hrun2 by (vm_compute; reflexivity).
  split; [exact Hrun1|]. split; [exact Hrun2|].
  assert (retrieve_TauJetContainer "TauJets" w1 = Some scenario_taus) as Hin1
    by (vm_compute; reflexivity).
  assert (retrieve_TauJetContainer "TauJets" w2 = Some scenario_taus) as Hin2
    by (vm_compute; reflexivity).
  assert (TES_1up ∈ [nominal; TES_1up]) as Hs1 by (right; by left).
  assert (TES_1up ∈ [TES_1up]) as Hs2 by (by left).
  exact (X8_variations_are_independent w1 w1' w2 w2' scenario_taus TES_1up
           eq_refl eq_refl Hin1 Hin2 Hs1 Hs2 Hrun1 Hrun2).
Defined.


(** The algorithm as constructed, never initialized. *)
Lemma X10_witness :
  let w := world_of (constructed (scenario_props false true)) (event_store scenario_taus) in
  m_systList (this w) = [] ∧
  execute w =
    (SUCCESS,
     set_evtStore (<["Out_Syst" := ObjStringVector []]> (evtStore w)) (begin_event w)).
Proof.
  intros w.
  assert (m_systList (this w) = []) as Hlist by reflexivity.
  split; [exact Hlist|].
  destruct (X10_no_variations w (mkEventInfo 1) scenario_taus Hlist) as (Hfree & _).
  - vm_compute; reflexivity.
  - vm_compute; reflexivity.
  - apply Hfree. vm_compute; reflexivity.
Defined.

(** The key of the first auxiliary store is taken. *)
Lemma X11_witness :
  let w := world_of (configured (scenario_props false true) [nominal; TES_1up])
             store_with_taken_key in
  evtStore w !! "OutShallowCopy" = None ∧
  is_Some (evtStore w !! "OutShallowCopyAux.") ∧
  (execute w).1 = FAILURE ∧
  evtStore (execute w).2 =
    <["OutShallowCopy" := ObjTauJetContainer (out_copy (this w) nominal scenario_taus)]>
      (evtStore w).
Proof.
  intros w.
  assert (evtStore w !! "OutShallowCopy" = None) as Hfree by (vm_compute; reflexivity).
  assert (is_Some (evtStore w !! "OutShallowCopyAux.")) as Htaken
    by (eexists; vm_compute; reflexivity).
  split; [exact Hfree|]. split; [exact Htaken|].
  assert (retrieve_EventInfo "EventInfo" w = Some (mkEventInfo 1)) as Hei
    by (vm_compute; reflexivity).
  assert (retrieve_TauJetContainer "TauJets" w = Some scenario_taus) as Hin
    by (vm_compute; reflexivity).
  assert (applySystematicVariation nominal = CP.SystematicCode.Ok) as Hcfg
    by (vm_compute; reflexivity).
  exact (X11_partly_filed_variation w (mkEventInfo 1) scenario_taus nominal [TES_1up]
           eq_refl Hei Hin Hcfg Hfree Htaken).
Defined.

(** An algorithm without input container name. *)
Lemma X12_witness :
  let w0 := world_of (constructed nameless_props) (∅ : gmap string StoreObject) in
  m_inContainerName (props (this w0)) = "" ∧
  ∃ w1,
    initialize w0 = (None, w1) ∧
    msg w1 = [ (MSG.INFO, "Initializing TauCalibrator Interface... ");
               (MSG.ERROR, "InputContainer is empty!") ] ∧
    m_outSCContainerName (this w1) = "OutShallowCopy" ∧
    m_systList (this w1) = [] ∧
    m_numEvent (this w1) = 0%Z ∧
    m_numObject (this w1) = 0%Z ∧
    evtStore w1 = ∅ ∧
    hist w1 = [].
Proof.
  intros w0. split; [reflexivity|].
  exact (X12_initialize_refuses_empty_input_name w0 eq_refl).
Defined.

(** initialize in the scenario. *)
Lemma X14_witness :
  let w0 := world_of (constructed (scenario_props false true)) (∅ : gmap string StoreObject) in
  let w1 := (initialize w0).2 in
  initialize w0 = (Some tt, w1) ∧
  evtStore w1 !! "taus_SystTauCalibrator" =
    Some (ObjStringVector [""; "TAUS_TES_TOTAL_1up"]) ∧
  m_numEvent (this w1) = 0%Z ∧
  hist w1 = [] ∧
  tool_calls w1 = [].
Proof.
  intros w0 w1.
  assert (initialize w0 = (Some tt, w1)) as Hinit by (vm_compute; reflexivity).
  destruct (X14_what_initialize_leaves w0 w1 Hinit) as (_ & Hstore & Hev & _ & Hhist & Hcalls & _).
  split; [exact Hinit|]. split.
  - rewrite Hstore. vm_compute. reflexivity.
  - split; [exact Hev|]. split; [exact Hhist|exact Hcalls].
Defined.

(** initialize without input container name, in a store that holds an
    event. *)
Lemma X15_witness :
  let w0 := world_of (constructed nameless_props) (event_store scenario_taus) in
  (initialize w0).1 = None ∧
  evtStore (initialize w0).2 = evtStore w0 ∧
  hist (initialize w0).2 = hist w0 ∧
  tool_calls (initialize w0).2 = tool_calls w0 ∧
  tool_active (initialize w0).2 = tool_active w0.
Proof.
  intros w0.
  assert ((initialize w0).1 = None) as Hfail by (vm_compute; reflexivity).
  split; [exact Hfail|]. exact (X15_failed_initialize_files_nothing w0 Hfail).
Defined.

(** initialize in the scenario, twice. *)
Lemma X16_witness :
  let w0 := world_of (constructed (scenario_props false true)) (∅ : gmap string StoreObject) in
  let w1 := (initialize w0).2 in
  initialize w0 = (Some tt, w1) ∧
  (initialize w1).1 = None ∧ evtStore (initialize w1).2 = evtStore w1.
Proof.
  intros w0 w1.
  assert (initialize w0 = (Some tt, w1)) as Hinit by (vm_compute; reflexivity).
  split; [exact Hinit|]. exact (X16_second_initialize_fails w0 w1 Hinit).
Defined.

(** initialize in the scenario, then one event. *)
Lemma X17_witness :
  let w0 := world_of (constructed (scenario_props false true)) (∅ : gmap string StoreObject) in
  let w1 := (initialize w0).2 in
  let w := set_evtStore (event_store scenario_taus) w1 in
  let w' := (execute w).2 in
  initialize w0 = (Some tt, w1) ∧
  execute w = (SUCCESS, w') ∧
  ∃ at_initialize per_event,
    evtStore w1 !! "taus_SystTauCalibrator" = Some (ObjStringVector at_initialize) ∧
    evtStore w' !! "Out_Syst" = Some (ObjStringVector per_event) ∧
    per_event = [""; "TAUS_TES_TOTAL_1up"] ∧
    ("TAUS_TES_TOTAL_1up" ≠ "" → at_initialize = per_event) ∧
    ("TAUS_TES_TOTAL_1up" = "" → at_initialize = []).
Proof.
  intros w0 w1 w w'.
  assert (initialize w0 = (Some tt, w1)) as Hinit by (vm_compute; reflexivity).
  assert (execute w = (SUCCESS, w')) as Hrun by (vm_compute; reflexivity).
  split; [exact Hinit|]. split; [exact Hrun|].
  exact (X17_names_at_initialize_and_per_event w0 w1 w w' Hinit eq_refl Hrun).
Defined.

(** The event counter at the largest int: the next event takes it to the
    smallest one. *)
Lemma X1_witness :
  let w := world_of (mkTauCalibrator (scenario_props false true)
                       "OutAux." "OutShallowCopy" "OutShallowCopyAux."
                       2147483647 0 [nominal; TES_1up])
             (event_store scenario_taus) in
  m_numEvent (this w) = 2147483647%Z ∧
  m_numEvent (this (execute w).2) = (-2147483648)%Z.
Proof.
  intros w. split; [reflexivity|].
  destruct (X1_execute_counts_every_event w) as (_ & _ & Hmax & _).
  apply Hmax. reflexivity.
Defined.
